(** * AI Toolbox API: list, search and recommendation handlers of [main.py]

    A shallow embedding of the three [/api] handlers and of the text
    primitives they use, followed by the properties of the filter builder,
    the free-text search and the recommendation scorer.

    Text is modelled as [string] whose characters are the code points
    0..255; [str.lower], [str.split], [len], [in] and [str.join] are
    embedded for that range. *)

From Stdlib Require Import ZArith String Ascii Bool Lia.
From Stdlib Require Import Sorting.Sorted.
From stdpp Require Import base gmap sets list strings pretty.

Local Open Scope Z_scope.

(** ** Text primitives *)

Module Text.

(** [str.lower] on one character: A-Z and the Latin-1 capitals
    (U+00C0..U+00DE without the multiplication sign U+00D7) move up by 32. *)
Definition lower_char (c : ascii) : ascii :=
  let n := N_of_ascii c in
  if ((65 <=? n) && (n <=? 90))%N
     || ((192 <=? n) && (n <=? 222) && negb (n =? 215))%N
  then ascii_of_N (n + 32)
  else c.

(** [s.lower()] *)
Fixpoint lower (s : string) : string :=
  match s with
  | EmptyString => EmptyString
  | String c s' => String (lower_char c) (lower s')
  end.

(** [c.isspace()]: the separators of [str.split()] without argument. *)
Definition isspace (c : ascii) : bool :=
  let n := N_of_ascii c in
  (((9 <=? n) && (n <=? 13)) || ((28 <=? n) && (n <=? 32))
   || (n =? 133) || (n =? 160))%N.

(** [s.split()]: maximal runs of non-space characters, left to right.
    [cur] is the word being read. *)
Fixpoint split_go (cur : string) (s : string) : list string :=
  match s with
  | EmptyString =>
      match cur with EmptyString => [] | _ => [cur] end
  | String c s' =>
      if isspace c then
        match cur with
        | EmptyString => split_go EmptyString s'
        | _ => cur :: split_go EmptyString s'
        end
      else split_go (cur +:+ String c EmptyString) s'
  end.

Definition split (s : string) : list string := split_go EmptyString s.

(** [len(s)] *)
Definition len (s : string) : Z := Z.of_nat (String.length s).

(** [w in s] on strings: [w] starts at some position of [s]. *)
Fixpoint contains (s w : string) : bool :=
  String.prefix w s
  || match s with
     | EmptyString => false
     | String _ s' => contains s' w
     end.

(** [sep.join(l)] *)
Definition join (sep : string) (l : list string) : string :=
  String.concat sep l.

(** [w] occurs in [s]: the meaning of Python's substring test. *)
Definition substring_of (w s : string) : Prop :=
  ∃ a b, s = a +:+ w +:+ b.

End Text.

(** ** Data model *)

(** The [Tool] record of [schemas.py], with the fields the handlers read. *)
Record Tool := mkTool {
  name : string;
  description : string;
  tags : list string;
  categories : list string;
  pricing : string;
  use_cases : list string
}.

(** A raw store document: field name to value. [VOpaque] stands for values
    the handlers never inspect, such as the store-assigned ["_id"]. *)
Inductive value :=
| VStr (s : string)
| VList (l : list string)
| VOpaque (n : Z).

Abbreviation document := (gmap string value).

(** The conditions the filter builder writes into a store filter:
    [pricing] is stored as [Eq_ pricing], [{"$in": [category]}] as
    [In_ [category]]. *)
Inductive cond :=
| Eq_ (v : string)
| In_ (vs : list string).

Abbreviation mongo_filter := (gmap string cond).

(** ** Exceptions and responses *)

Inductive exn := Exception (msg : string).

(** [str(e)] *)
Definition str (e : exn) : string :=
  match e with Exception msg => msg end.

Inductive outcome (A : Type) :=
| Return (a : A)
| Raise (e : exn).
Arguments Return {A} a.
Arguments Raise {A} e.

#[global] Instance outcome_ret : MRet outcome := λ A a, Return a.

#[global] Instance outcome_bind : MBind outcome := λ A B k m,
  match m with
  | Return a => k a
  | Raise e => Raise e
  end.

Record HTTPException := mkHTTPException {
  status_code : Z;
  detail : string
}.

Inductive response (A : Type) :=
| Ok (body : A)
| Error (e : HTTPException).
Arguments Ok {A} body.
Arguments Error {A} e.

(** [try: body  except Exception as e: raise HTTPException(500, str(e))] *)
Definition try_except {A} (body : outcome A) : response A :=
  match body with
  | Return a => Ok a
  | Raise e => Error (mkHTTPException 500 (str e))
  end.

(** ** External collaborators *)

(** The store gateway of [database.py]. *)
Class Database := {
  create_document : string → Tool → outcome string;
  get_documents : string → mongo_filter → Z → outcome (list document)
}.

(** The [Tool] constructor of [schemas.py], applied to the fields of a
    document: validation of a document into a record. *)
Class Schemas := {
  Tool_validate : document → outcome Tool
}.

(** The order in which [for word in set(...)] visits a set of words. The
    language fixes only that every member is visited exactly once. *)
Record set_order := {
  visit :> gset string → list string;
  visit_NoDup : ∀ S, NoDup (visit S);
  visit_elem : ∀ S w, w ∈ visit S ↔ w ∈ S
}.

(** ** Truthiness *)

(** [if s:] for a string *)
Definition truthy (s : string) : bool :=
  match s with EmptyString => false | String _ _ => true end.

(** [if o:] for an optional string parameter *)
Definition given (o : option string) : option string :=
  match o with
  | Some s => if truthy s then Some s else None
  | None => None
  end.

(** [if l:] for an optional list parameter *)
Definition given_list (o : option (list string)) : option (list string) :=
  match o with
  | Some (c :: l) => Some (c :: l)
  | _ => None
  end.

(** ** [list.sort(key=..., reverse=True)] *)

(** The library sort is stable, also with [reverse=True]. It is embedded
    as the insertion sort below; [sort_reverse_unique] shows that every
    stable descending sort returns the same list. *)

Section Sort.
Context {A : Type} (key : A → Z).

(** [x] stood before every element of [l]: it goes in front of the first
    element whose key is not larger than its own. *)
Fixpoint insert_reverse (x : A) (l : list A) : list A :=
  match l with
  | [] => [x]
  | y :: l' =>
      if key x <? key y then y :: insert_reverse x l' else x :: y :: l'
  end.

Definition sort_reverse (l : list A) : list A :=
  foldr insert_reverse [] l.
End Sort.

(** ** Shared handler steps *)

(** [for d in docs: d.pop("_id", None); items.append(Tool(fields of d))] *)
Fixpoint hydrate `{Schemas} (docs : list document) : outcome (list Tool) :=
  match docs with
  | [] => Return []
  | d :: docs' =>
      t ← Tool_validate (delete "_id" d) ;
      ts ← hydrate docs' ;
      Return (t :: ts)
  end.

(** ** [POST /api/tools] *)

Definition add_tool `{Database} (payload : Tool) : response (gmap string string) :=
  try_except (
    tool_id ← create_document "tool" payload ;
    Return {[ "id" := tool_id ]}).

(** ** [GET /api/tools] *)

(** Lines 83-87: the store filter. *)
Definition build_filter (category pricing : option string) : mongo_filter :=
  let mongo_filter : mongo_filter := ∅ in
  let mongo_filter :=
    match given category with
    | Some category => <[ "categories" := In_ [category] ]> mongo_filter
    | None => mongo_filter
    end in
  let mongo_filter :=
    match given pricing with
    | Some pricing => <[ "pricing" := Eq_ pricing ]> mongo_filter
    | None => mongo_filter
    end in
  mongo_filter.

(** Lines 98-100: the test of the list comprehension. *)
Definition text_match (q_lower : string) (t : Tool) : bool :=
  Text.contains (Text.lower (name t)) q_lower
  || Text.contains (Text.lower (description t)) q_lower
  || existsb (λ tag, Text.contains (Text.lower tag) q_lower) (tags t).

(** Lines 95-102. *)
Definition search (q : option string) (tools : list Tool) : list Tool :=
  match given q with
  | Some q =>
      let q_lower := Text.lower q in
      List.filter (text_match q_lower) tools
  | None => tools
  end.

Definition list_tools `{Database} `{Schemas}
    (q category pricing : option string) (limit : Z) : response (list Tool) :=
  try_except (
    docs ← get_documents "tool" (build_filter category pricing) limit ;
    tools ← hydrate docs ;
    Return (search q tools)).

(** ** [GET /api/recommend] *)

Section Scorer.
Variable order : set_order.
Variables (task : string) (categories_arg : option (list string))
          (budget : option string).

(** Line 125 *)
Definition haystack (tool : Tool) : string :=
  Text.lower (name tool +:+ " " +:+ description tool +:+ " "
              +:+ Text.join " " (tags tool) +:+ " "
              +:+ Text.join " " (use_cases tool)).

(** Lines 126-128, from the score reached so far. *)
Definition keyword_loop (hay : string) (words : list string) (score : Z) : Z :=
  foldl (λ score word,
           if (2 <? Text.len word) && Text.contains hay word
           then score + 2 else score)
        score words.

(** Line 131 *)
Definition category_hit (cs : list string) (tool : Tool) : bool :=
  existsb (λ c, existsb (λ cat, String.eqb (Text.lower c) (Text.lower cat))
                        (categories tool)) cs.

(** Lines 123-137: the body of the scoring loop for one tool. *)
Definition score_tool (tool : Tool) : Z :=
  let t := Text.lower task in
  let score := 0 in
  let hay := haystack tool in
  let score := keyword_loop hay (order (list_to_set (Text.split t))) score in
  let score :=
    match given_list categories_arg with
    | Some cs => if category_hit cs tool then score + 3 else score - 1
    | None => score
    end in
  let score :=
    match given budget with
    | Some b => if String.eqb (pricing tool) b then score + 2 else score
    | None => score
    end in
  score.

(** Lines 121-138 *)
Definition scored (items : list Tool) : list (Z * Tool) :=
  map (λ tool, (score_tool tool, tool)) items.

(** Line 139 *)
Definition ranked (items : list Tool) : list (Z * Tool) :=
  sort_reverse fst (scored items).

(** Line 140 *)
Definition top10 (items : list Tool) : list Tool :=
  map snd (take 10 (ranked items)).

Definition recommend_tools `{Database} `{Schemas} : response (list Tool) :=
  try_except (
    docs ← get_documents "tool" ∅ 200 ;
    items ← hydrate docs ;
    Return (top10 items)).
End Scorer.

(** ** The store's reading of a filter *)

(** Modelled from the spec: how [database.get_documents] reads a filter
    (section 4.1): [In_ vs] on a field asks that the stored sequence
    contains a member of [vs], [Eq_ v] that the stored string equals [v];
    a document matches when every condition of the filter holds. *)
Definition cond_holds (c : cond) (stored : option value) : bool :=
  match c, stored with
  | Eq_ v, Some (VStr s) => String.eqb s v
  | In_ vs, Some (VList l) => existsb (λ x, existsb (String.eqb x) vs) l
  | _, _ => false
  end.

Definition matches (f : mongo_filter) (d : document) : bool :=
  forallb (λ kc, cond_holds kc.2 (d !! kc.1)) (map_to_list f).

(** What the handlers may assume of a fetch: only matching documents. *)
Definition fetch_sound `{Database} : Prop :=
  ∀ kind f limit docs,
    get_documents kind f limit = Return docs →
    Forall (λ d, matches f d = true) docs.

(** ** Specification-side vocabulary *)

(** The unique words of a task, as the scorer sees them. *)
Definition task_words (task : string) : gset string :=
  list_to_set (Text.split (Text.lower task)).

(** A task word that earns points for a tool. *)
Definition earns (tool : Tool) (w : string) : Prop :=
  2 < Text.len w ∧ Text.substring_of w (haystack tool).

(** Some requested category equals some category of the tool, ignoring case. *)
Definition category_overlap (cs : list string) (tool : Tool) : Prop :=
  ∃ c cat, c ∈ cs ∧ cat ∈ categories tool ∧ Text.lower c = Text.lower cat.

(** The query occurs in the name, the description or a tag, ignoring case. *)
Definition text_hit (q : string) (t : Tool) : Prop :=
  Text.substring_of (Text.lower q) (Text.lower (name t))
  ∨ Text.substring_of (Text.lower q) (Text.lower (description t))
  ∨ Exists (λ tag, Text.substring_of (Text.lower q) (Text.lower tag)) (tags t).

(** A string without a whitespace character. *)
Fixpoint spaceless (s : string) : bool :=
  match s with
  | EmptyString => true
  | String c s' => negb (Text.isspace c) && spaceless s'
  end.

(** Descending by key. *)
Definition descending {A} (key : A → Z) (l : list A) : Prop :=
  ∀ i j x y, (i < j)%nat → l !! i = Some x → l !! j = Some y → key y ≤ key x.

(** Equal keys keep the order they had in [l]. *)
Definition keeps_ties {A} (key : A → Z) (l l' : list A) : Prop :=
  ∀ k, List.filter (λ x, key x =? k) l' = List.filter (λ x, key x =? k) l.

(** ** Instances used to run the handlers *)

(** One run's visiting order: the one of [elements]. *)
Definition elements_order : set_order :=
  {| visit := elements;
     visit_NoDup := NoDup_elements;
     visit_elem := λ S w, elem_of_elements S w |}.

(** Another run's visiting order: the reverse one. *)
Program Definition reverse_order : set_order :=
  {| visit := λ S, reverse (elements S) |}.
Next Obligation. intros S. rewrite reverse_Permutation. apply NoDup_elements. Qed.
Next Obligation. intros S w. rewrite elem_of_reverse. apply elem_of_elements. Qed.

(** A document as the store keeps a tool. *)
Definition document_of (id : Z) (t : Tool) : document :=
  {[ "_id" := VOpaque id;
     "name" := VStr (name t);
     "description" := VStr (description t);
     "tags" := VList (tags t);
     "categories" := VList (categories t);
     "pricing" := VStr (pricing t);
     "use_cases" := VList (use_cases t) ]}.

(** Modelled from the spec: the [Tool] constructor of [schemas.py]
    (section 3): name and description are required, the name non-empty;
    absent sequences default to the empty one. *)
Definition str_field (d : document) (k : string) : outcome string :=
  match d !! k with
  | Some (VStr s) => Return s
  | _ => Raise (Exception ("validation error: " +:+ k))
  end.

Definition list_field (d : document) (k : string) : outcome (list string) :=
  match d !! k with
  | Some (VList l) => Return l
  | None => Return []
  | _ => Raise (Exception ("validation error: " +:+ k))
  end.

Definition spec_Tool (d : document) : outcome Tool :=
  n ← str_field d "name";
  _ ← (if truthy n then Return n else Raise (Exception "validation error: name"));
  de ← str_field d "description";
  tg ← list_field d "tags";
  ca ← list_field d "categories";
  pr ← str_field d "pricing";
  uc ← list_field d "use_cases";
  Return (mkTool n de tg ca pr uc).

Definition spec_schemas : Schemas := {| Tool_validate := spec_Tool |}.

(** Modelled from the spec: a store gateway over a fixed collection of
    tool documents; a fetch returns the first [limit] matching ones. *)
Definition collection_db (store : list document) : Database :=
  {| create_document := λ kind payload,
       Return (pretty (Z.of_nat (length store)));
     get_documents := λ kind f limit,
       Return (take (Z.to_nat limit) (List.filter (matches f) store)) |}.

(** A store gateway that cannot reach its store. *)
Definition broken_db (msg : string) : Database :=
  {| create_document := λ kind payload, Raise (Exception msg);
     get_documents := λ kind f limit, Raise (Exception msg) |}.

(** The tools of the spec's examples. *)
Definition pdf_summarizer : Tool :=
  mkTool "PDF Summarizer" "summarize pdf documents" ["pdf"; "summary"]
         ["productivity"] "freemium" [].
Definition generic_chatbot : Tool :=
  mkTool "Generic Chatbot" "talks about anything" [] ["chat"] "paid" [].
Definition code_helper : Tool :=
  mkTool "Code Helper" "writes programs" ["dev"] ["coding"] "free" ["refactoring"].

Definition sample_store : list document :=
  [document_of 1 pdf_summarizer; document_of 2 generic_chatbot;
   document_of 3 code_helper].

(** ** [GET /test] *)

(** [s[:n]] on a string *)
Fixpoint slice_to (n : nat) (s : string) : string :=
  match n, s with
  | S n', String c s' => String c (slice_to n' s')
  | _, _ => EmptyString
  end.

(** A value of the diagnostic response: [None], a string or a list of
    names. *)
Inductive jvalue :=
| JNone
| JStr (s : string)
| JList (l : list string).

(** The process-wide store handle [db] of [database.py], as far as the
    probe touches it: reading [db.name] finds no such attribute ([None]),
    gives a name or raises; [db.list_collection_names()] gives the names
    or raises. *)
Record DbHandle := {
  name_attr : option (outcome string);
  list_collection_names : outcome (list string)
}.

(** [os.getenv(k)] used as a condition: set and not empty. *)
Definition getenv_truthy (env : gmap string string) (k : string) : bool :=
  match env !! k with
  | Some v => truthy v
  | None => false
  end.

(** Lines 25-54. The response dictionary is threaded through the
    assignments; an exception leaves what was assigned before it. Literals
    with characters beyond U+00FF stand as their UTF-8 bytes. *)
Definition test_database (db : option DbHandle) (env : gmap string string)
    : gmap string jvalue :=
  let response : gmap string jvalue :=
    {[ "backend" := JStr "✅ Running";
       "database" := JStr "❌ Not Available";
       "database_url" := JNone;
       "database_name" := JNone;
       "connection_status" := JStr "Not Connected";
       "collections" := JList [] ]} in
  let response :=
    match db with
    | Some h =>
        let response := <[ "database" := JStr "✅ Available" ]> response in
        let response := <[ "database_url" := JStr "✅ Configured" ]> response in
        match name_attr h with
        | Some (Raise e) =>
            <[ "database" := JStr ("❌ Error: " +:+ slice_to 50 (str e)) ]>
              response
        | attr =>
            let shown :=
              match attr with
              | Some (Return n) => n
              | _ => "✅ Connected"
              end in
            let response := <[ "database_name" := JStr shown ]> response in
            let response :=
              <[ "connection_status" := JStr "Connected" ]> response in
            match list_collection_names h with
            | Return collections =>
                let response :=
                  <[ "collections" := JList (take 10 collections) ]> response in
                <[ "database" := JStr "✅ Connected & Working" ]> response
            | Raise e =>
                <[ "database" :=
                     JStr ("⚠️  Connected but Error: " +:+ slice_to 50 (str e)) ]>
                  response
            end
        end
    | None =>
        <[ "database" := JStr "⚠️  Available but not initialized" ]> response
    end in
  let response :=
    <[ "database_url" :=
         JStr (if getenv_truthy env "DATABASE_URL" then "✅ Set" else "❌ Not Set") ]>
      response in
  let response :=
    <[ "database_name" :=
         JStr (if getenv_truthy env "DATABASE_NAME" then "✅ Set" else "❌ Not Set") ]>
      response in
  response.

(** A stored document without a name, and a collection that holds it
    between two sound ones. *)
Definition nameless_document : document :=
  {[ "_id" := VOpaque 7; "description" := VStr "no name"; "pricing" := VStr "free" ]}.

Definition faulty_store : list document :=
  [document_of 1 pdf_summarizer; nameless_document; document_of 3 code_helper].

(** A store handle whose collections cannot be listed, and one with twelve
    collections. *)
Definition unlisted_handle : DbHandle :=
  {| name_attr := Some (Return "toolbox");
     list_collection_names :=
       Raise (Exception
         "ServerSelectionTimeoutError: localhost:27017: [Errno 111] Connection refused") |}.

Definition crowded_handle : DbHandle :=
  {| name_attr := Some (Return "toolbox");
     list_collection_names :=
       Return ["c01"; "c02"; "c03"; "c04"; "c05"; "c06";
               "c07"; "c08"; "c09"; "c10"; "c11"; "c12"] |}.

(** * Properties *)

Example split_ex :
  Text.split (Text.lower "  Summarize PDF  documents	quickly ")
  = ["summarize"; "pdf"; "documents"; "quickly"].
Proof. reflexivity. Qed.

Example contains_ex : Text.contains "pdf summarizer" "summ" = true.
Proof. reflexivity. Qed.

(** ** Substring test *)

Lemma append_cons (c : ascii) (w b : string) :
  String c w +:+ b = String c (w +:+ b).
Proof. reflexivity. Qed.

Lemma prefix_spec (w s : string) :
  String.prefix w s = true ↔ ∃ b, s = w +:+ b.
Proof.
  revert s. induction w as [|c w IH]; intros s.
  - destruct s; split; eauto.
  - destruct s as [|c' s]; cbn [String.prefix].
    + split; [discriminate | intros [b Hb]; discriminate].
    + destruct (ascii_dec c c') as [->|Hne].
      * rewrite IH. split; intros [b Hb]; exists b;
          rewrite append_cons in *; congruence.
      * split; [discriminate |].
        intros [b Hb]. rewrite append_cons in Hb. congruence.
Qed.

Lemma contains_spec (s w : string) :
  Text.contains s w = true ↔ Text.substring_of w s.
Proof.
  unfold Text.substring_of. induction s as [|c s IH]; cbn [Text.contains].
  - rewrite orb_false_r, prefix_spec. split.
    + intros [b Hb]. exists EmptyString, b. exact Hb.
    + intros [a [b Hab]]. destruct a; [eauto | discriminate].
  - rewrite orb_true_iff, prefix_spec, IH. split.
    + intros [[b Hb] | [a [b Hab]]].
      * exists EmptyString, b. exact Hb.
      * exists (String c a), b. rewrite append_cons. congruence.
    + intros [a [b Hab]]. destruct a as [|c' a].
      * left. eauto.
      * right. exists a, b. rewrite append_cons in Hab. congruence.
Qed.

#[global] Instance substring_of_dec (w s : string) :
  Decision (Text.substring_of w s).
Proof.
  destruct (Text.contains s w) eqn:E.
  - left. by apply contains_spec.
  - right. intros H. apply contains_spec in H. congruence.
Defined.

#[global] Instance earns_dec (tool : Tool) (w : string) : Decision (earns tool w).
Proof. unfold earns. apply _. Defined.

Lemma substring_of_empty (s : string) : Text.substring_of EmptyString s.
Proof. exists EmptyString, s. reflexivity. Qed.

(** ** The sort *)

Section SortFacts.
Context {A : Type} (key : A → Z).

Let geq (x y : A) : Prop := key y ≤ key x.

Lemma insert_reverse_Permutation (x : A) (l : list A) :
  insert_reverse key x l ≡ₚ x :: l.
Proof.
  induction l as [|y l IH]; simpl; [done|].
  destruct (key x <? key y); [|done].
  rewrite IH. apply perm_swap.
Qed.

Lemma sort_reverse_Permutation (l : list A) : sort_reverse key l ≡ₚ l.
Proof.
  induction l as [|x l IH]; simpl; [done|].
  by rewrite insert_reverse_Permutation, IH.
Qed.

Lemma length_sort_reverse (l : list A) :
  length (sort_reverse key l) = length l.
Proof. by rewrite sort_reverse_Permutation. Qed.

Lemma insert_reverse_sorted (x : A) (l : list A) :
  StronglySorted geq l → StronglySorted geq (insert_reverse key x l).
Proof.
  induction 1 as [|y l Hl IH Hy]; simpl.
  - repeat constructor.
  - destruct (key x <? key y) eqn:E.
    + apply Z.ltb_lt in E. constructor; [exact IH|].
      rewrite insert_reverse_Permutation. constructor; [|exact Hy].
      unfold geq. lia.
    + apply Z.ltb_ge in E. constructor; [by constructor|].
      constructor; [exact E|].
      eapply Forall_impl; [exact Hy|]. unfold geq. intros z Hz. simpl in Hz. lia.
Qed.

Lemma sort_reverse_sorted (l : list A) :
  StronglySorted geq (sort_reverse key l).
Proof.
  induction l as [|x l IH]; simpl; [constructor|].
  by apply insert_reverse_sorted.
Qed.

Lemma sorted_descending (l : list A) :
  StronglySorted geq l ↔ descending key l.
Proof.
  unfold descending. split.
  - induction 1 as [|z l Hl IH Hz]; intros i j x y Hij Hi Hj.
    + by rewrite lookup_nil in Hi.
    + destruct j as [|j]; [lia|]. simpl in Hj. destruct i as [|i]; simpl in Hi.
      * injection Hi as <-. rewrite Forall_forall in Hz.
        apply Hz. by eapply list_elem_of_lookup_2.
      * eapply (IH i j); eauto. lia.
  - induction l as [|z l IH]; intros H; constructor.
    + apply IH. intros i j x y Hij Hi Hj. by apply (H (S i) (S j) x y); [lia|..].
    + apply Forall_forall. intros y Hy.
      apply list_elem_of_lookup in Hy as [j Hj].
      by apply (H 0%nat (S j) z y); [lia|..].
Qed.

Lemma sort_reverse_descending (l : list A) :
  descending key (sort_reverse key l).
Proof. apply sorted_descending, sort_reverse_sorted. Qed.

Lemma insert_reverse_filter (k : Z) (x : A) (l : list A) :
  List.filter (λ y, key y =? k) (insert_reverse key x l)
  = List.filter (λ y, key y =? k) (x :: l).
Proof.
  induction l as [|y l IH]; [done|].
  cbn [insert_reverse]. destruct (key x <? key y) eqn:E; [|done].
  apply Z.ltb_lt in E. cbn [List.filter] in *. rewrite IH.
  destruct (key x =? k) eqn:Ex, (key y =? k) eqn:Ey; try done.
  apply Z.eqb_eq in Ex, Ey. lia.
Qed.

Lemma sort_reverse_keeps_ties (l : list A) :
  keeps_ties key l (sort_reverse key l).
Proof.
  intros k. induction l as [|x l IH]; [done|].
  cbn [sort_reverse foldr]. rewrite insert_reverse_filter.
  cbn [List.filter]. fold (sort_reverse key l). by rewrite IH.
Qed.

Lemma filter_key_head (x : A) (l : list A) :
  In x (List.filter (λ y, key y =? key x) (x :: l)).
Proof. cbn [List.filter]. rewrite Z.eqb_refl. by left. Qed.

Lemma sorted_ties_unique (l1 l2 : list A) :
  StronglySorted geq l1 → StronglySorted geq l2 →
  (∀ k, List.filter (λ x, key x =? k) l1 = List.filter (λ x, key x =? k) l2) →
  l1 = l2.
Proof.
  intros H1. revert l2. induction H1 as [|a l1 Hl1 IH Ha]; intros l2 H2 Hf.
  - destruct l2 as [|b l2]; [done|].
    pose proof (filter_key_head b l2) as Hb. by rewrite <- Hf in Hb.
  - destruct l2 as [|b l2].
    { pose proof (filter_key_head a l1) as Hin. by rewrite Hf in Hin. }
    inversion H2 as [|? ? Hl2 Hb]; subst.
    destruct (decide (key a = key b)) as [E|NE].
    + assert (a = b) as ->.
      { specialize (Hf (key a)). cbn [List.filter] in Hf.
        rewrite Z.eqb_refl, <- E, Z.eqb_refl in Hf. congruence. }
      f_equal. apply IH; [done|]. intros k. specialize (Hf k).
      cbn [List.filter] in Hf. destruct (key b =? k); congruence.
    + exfalso.
      pose proof (filter_key_head a l1) as Hin1. rewrite Hf in Hin1.
      apply filter_In in Hin1 as [[->|Hin1] _]; [done|].
      pose proof (filter_key_head b l2) as Hin2. rewrite <- Hf in Hin2.
      apply filter_In in Hin2 as [[->|Hin2] _]; [done|].
      rewrite Forall_forall in Ha, Hb.
      apply list_elem_of_In, Hb in Hin1. apply list_elem_of_In, Ha in Hin2.
      unfold geq in *. lia.
Qed.

(** The sort is determined by its two properties: any list that is
    descending and keeps the ties of [l] is the sorted list. *)
Lemma sort_reverse_unique (l l' : list A) :
  descending key l' → keeps_ties key l l' → l' = sort_reverse key l.
Proof.
  intros Hd Ht. apply sorted_ties_unique.
  - by apply sorted_descending.
  - apply sort_reverse_sorted.
  - intros k. rewrite Ht. symmetry. apply sort_reverse_keeps_ties.
Qed.
End SortFacts.

(** ** The visiting order of a set *)

Lemma visit_Permutation (o1 o2 : set_order) (S : gset string) : o1 S ≡ₚ o2 S.
Proof.
  apply NoDup_Permutation; [apply visit_NoDup..|].
  intros w. by rewrite !visit_elem.
Qed.

Lemma visit_filter_length (o : set_order) (P : string → Prop)
    `{!∀ w, Decision (P w)} (S : gset string) :
  length (filter P (o S)) = size (filter P S).
Proof.
  unfold size, set_size. simpl. apply Permutation_length.
  apply NoDup_Permutation.
  - apply NoDup_filter, visit_NoDup.
  - apply NoDup_elements.
  - intros w. rewrite list_elem_of_filter, visit_elem, elem_of_elements.
    by rewrite elem_of_filter.
Qed.

(** ** The keyword loop *)

Lemma earns_test (tool : Tool) (w : string) :
  (2 <? Text.len w) && Text.contains (haystack tool) w = true ↔ earns tool w.
Proof.
  unfold earns. by rewrite andb_true_iff, Z.ltb_lt, contains_spec.
Qed.

Lemma keyword_loop_count (tool : Tool) (ws : list string) (z : Z) :
  keyword_loop (haystack tool) ws z
  = z + 2 * Z.of_nat (length (filter (earns tool) ws)).
Proof.
  unfold keyword_loop. revert z.
  induction ws as [|w ws IH]; intros z; cbn [foldl].
  - rewrite filter_nil. simpl. lia.
  - rewrite IH, filter_cons.
    destruct (decide (earns tool w)) as [Hw|Hw].
    + apply earns_test in Hw. rewrite Hw. cbn [length]. lia.
    + destruct ((2 <? Text.len w) && Text.contains (haystack tool) w) eqn:E.
      * by apply earns_test in E.
      * lia.
Qed.

Lemma keyword_loop_set (o : set_order) (tool : Tool) (S : gset string) :
  keyword_loop (haystack tool) (o S) 0
  = 2 * Z.of_nat (size (filter (earns tool) S)).
Proof. by rewrite keyword_loop_count, visit_filter_length. Qed.

(** ** The three parts of a score *)

Section ScoreParts.
Variable order : set_order.

(** The category step and the budget step, from a score [z]. *)
Lemma score_tool_unfold task cats budget tool :
  score_tool order task cats budget tool
  = let z := keyword_loop (haystack tool) (order (task_words task)) 0 in
    let z := match given_list cats with
             | Some cs => if category_hit cs tool then z + 3 else z - 1
             | None => z
             end in
    match given budget with
    | Some b => if String.eqb (pricing tool) b then z + 2 else z
    | None => z
    end.
Proof. reflexivity. Qed.

Lemma task_words_empty : task_words EmptyString = ∅.
Proof. reflexivity. Qed.

Lemma score_tool_task task cats budget tool :
  score_tool order task cats budget tool
  = 2 * Z.of_nat (size (filter (earns tool) (task_words task)))
    + score_tool order EmptyString cats budget tool.
Proof.
  rewrite !score_tool_unfold, !keyword_loop_set, task_words_empty.
  assert (filter (earns tool) (∅ : gset string) = ∅) as -> by set_solver.
  rewrite size_empty. cbn zeta.
  destruct (given_list cats) as [cs|], (given budget) as [b|];
    repeat match goal with |- context [if ?c then _ else _] => destruct c end;
    lia.
Qed.

Lemma category_hit_spec (cs : list string) (tool : Tool) :
  category_hit cs tool = true ↔ category_overlap cs tool.
Proof.
  unfold category_hit, category_overlap. rewrite existsb_exists. split.
  - intros (c & Hc & H). apply existsb_exists in H as (cat & Hcat & H).
    apply String.eqb_eq in H. exists c, cat.
    by rewrite !list_elem_of_In.
  - intros (c & cat & Hc & Hcat & H). exists c.
    rewrite <- list_elem_of_In. split; [done|].
    apply existsb_exists. exists cat. rewrite <- list_elem_of_In.
    split; [done|]. by apply String.eqb_eq.
Qed.

Lemma score_tool_categories task cs budget tool :
  cs ≠ [] →
  score_tool order task (Some cs) budget tool
  = score_tool order task None budget tool
    + (if category_hit cs tool then 3 else -1).
Proof.
  intros Hcs. rewrite !score_tool_unfold.
  destruct cs as [|c cs]; [done|]. cbn [given_list]. cbn zeta.
  destruct (given budget) as [b|];
    repeat match goal with |- context [if ?c then _ else _] => destruct c end;
    lia.
Qed.

Lemma score_tool_budget task cats b tool :
  b ≠ EmptyString →
  score_tool order task cats (Some b) tool
  = score_tool order task cats None tool
    + (if String.eqb (pricing tool) b then 2 else 0).
Proof.
  intros Hb. rewrite !score_tool_unfold.
  destruct b as [|c b]; [done|]. cbn [given truthy]. cbn zeta.
  destruct (String.eqb _ _); lia.
Qed.

Lemma score_tool_budget_empty task cats tool :
  score_tool order task cats (Some EmptyString) tool
  = score_tool order task cats None tool.
Proof. reflexivity. Qed.
End ScoreParts.

(** ** Splitting a task said twice *)

Lemma lower_append (a b : string) :
  Text.lower (a +:+ b) = Text.lower a +:+ Text.lower b.
Proof.
  induction a as [|c a IH]; [done|].
  rewrite append_cons. cbn [Text.lower]. by rewrite IH, append_cons.
Qed.

Lemma split_go_space (a cur b : string) :
  Text.split_go cur (a +:+ String " " b)
  = Text.split_go cur a ++ Text.split_go EmptyString b.
Proof.
  revert cur. induction a as [|c a IH]; intros cur.
  - destruct cur; reflexivity.
  - rewrite append_cons. cbn [Text.split_go].
    destruct (Text.isspace c); [|apply IH].
    destruct cur; rewrite IH; reflexivity.
Qed.

Lemma task_words_twice (task : string) :
  task_words (task +:+ " " +:+ task) = task_words task.
Proof.
  unfold task_words, Text.split.
  rewrite lower_append. change (Text.lower (" " +:+ task)) with (String " " (Text.lower task)).
  rewrite split_go_space, list_to_set_app_L. apply (idemp_L (∪)).
Qed.

(** ** Ranking *)

Section Ranking.
Variable order : set_order.
Variables (task : string) (cats : option (list string)) (budget : option string).

Lemma ranked_Permutation (items : list Tool) :
  ranked order task cats budget items ≡ₚ scored order task cats budget items.
Proof. apply sort_reverse_Permutation. Qed.

Lemma ranked_entry (items : list Tool) (i : nat) (z : Z) (tool : Tool) :
  ranked order task cats budget items !! i = Some (z, tool) →
  z = score_tool order task cats budget tool ∧ tool ∈ items.
Proof.
  intros H. apply list_elem_of_lookup_2 in H.
  rewrite ranked_Permutation in H. unfold scored in H.
  apply list_elem_of_fmap in H as (t & Ht & Hin).
  injection Ht as -> ->. done.
Qed.

Lemma ranked_descending (items : list Tool) :
  descending fst (ranked order task cats budget items).
Proof. apply sort_reverse_descending. Qed.

Lemma length_ranked (items : list Tool) :
  length (ranked order task cats budget items) = length items.
Proof.
  unfold ranked. rewrite length_sort_reverse. unfold scored.
  apply length_map.
Qed.

(** A strictly better score means a strictly earlier place. *)
Lemma ranked_before (items : list Tool) (i j : nat) (t1 t2 : Tool) (z1 z2 : Z) :
  ranked order task cats budget items !! i = Some (z1, t1) →
  ranked order task cats budget items !! j = Some (z2, t2) →
  z2 < z1 → (i < j)%nat.
Proof.
  intros Hi Hj Hlt.
  destruct (decide (i < j)%nat) as [|Hge]; [done|]. exfalso.
  destruct (decide (i = j)) as [->|Hne].
  - rewrite Hi in Hj. injection Hj as -> ->. lia.
  - assert (j < i)%nat as Hji by lia.
    pose proof (ranked_descending items j i _ _ Hji Hj Hi) as H.
    simpl in H. lia.
Qed.

Lemma length_top10 (items : list Tool) :
  length (top10 order task cats budget items) = (10 `min` length items)%nat.
Proof.
  unfold top10. by rewrite length_map, length_take, length_ranked.
Qed.
End Ranking.

Lemma score_tool_order (o1 o2 : set_order) task cats budget tool :
  score_tool o1 task cats budget tool = score_tool o2 task cats budget tool.
Proof.
  by rewrite !score_tool_unfold, !keyword_loop_set.
Qed.

Lemma scored_order (o1 o2 : set_order) task cats budget items :
  scored o1 task cats budget items = scored o2 task cats budget items.
Proof.
  unfold scored. apply map_ext. intros t. f_equal. apply score_tool_order.
Qed.

(** * The recommendation scorer *)

(** C1. The task is lower-cased and split on whitespace into a set of
    unique words; a tool's score is 2 for every word of that set that is
    longer than 2 characters and occurs in the tool's haystack, on top of
    what the categories and the budget give (the score of the empty task).
    Words of length 2 or less are not counted, and saying the task twice
    changes nothing. *)
Theorem keyword_score_counts_unique_words
    (order : set_order) (task : string) (cats : option (list string))
    (budget : option string) (tool : Tool) :
  score_tool order task cats budget tool
  = 2 * Z.of_nat (size (filter
          (λ w, 2 < Text.len w ∧ Text.substring_of w (haystack tool))
          (list_to_set (Text.split (Text.lower task)) : gset string)))
    + score_tool order EmptyString cats budget tool
  ∧ haystack tool
    = Text.lower (name tool) +:+ " " +:+ Text.lower (description tool) +:+ " "
      +:+ Text.lower (Text.join " " (tags tool)) +:+ " "
      +:+ Text.lower (Text.join " " (use_cases tool))
  ∧ score_tool order (task +:+ " " +:+ task) cats budget tool
    = score_tool order task cats budget tool.
Proof.
  split; [apply score_tool_task|]. split.
  - unfold haystack. by rewrite !lower_append.
  - rewrite (score_tool_task order (task +:+ " " +:+ task)).
    rewrite task_words_twice. symmetry. apply score_tool_task.
Qed.

Lemma keyword_score_counts_unique_words_witness :
  let parted :=
    mkTool "Snap" "shot taker" ["pic"; "ture"] [] "free" ["photo"; "graph"] in
  score_tool elements_order "summarize pdf documents quickly" None None
    pdf_summarizer = 6
  ∧ score_tool elements_order "summarize pdf documents quickly" None None
      generic_chatbot = 0
  ∧ score_tool elements_order "SUMMARIZE	Pdf  pdf PDF" None None
      pdf_summarizer = 4
  ∧ score_tool elements_order "pd su me" None None pdf_summarizer = 0
  ∧ score_tool elements_order "Refactoring DEV" None None code_helper = 4
  ∧ score_tool elements_order "snapshot picture photograph" None None parted = 0
  ∧ score_tool elements_order "shot pic graph" None None parted = 6.
Proof.
  intros parted.
  pose proof (λ task tool,
    proj1 (keyword_score_counts_unique_words elements_order task None None tool))
    as Hscore.
  do 6 (split; [rewrite Hscore; vm_compute; reflexivity|]).
  rewrite Hscore. vm_compute. reflexivity.
Defined.

(** C2. The scored tools are ordered by score, highest first, and tools
    with equal scores keep the order in which the fetch produced them; the
    sorted list is the only list with these two properties. *)
Theorem ranking_is_stable_descending
    (order : set_order) (task : string) (cats : option (list string))
    (budget : option string) (items : list Tool) :
  descending fst (ranked order task cats budget items)
  ∧ keeps_ties fst (scored order task cats budget items)
                   (ranked order task cats budget items)
  ∧ map snd (scored order task cats budget items) = items
  ∧ top10 order task cats budget items
    = map snd (take 10 (ranked order task cats budget items))
  ∧ ∀ l, descending fst l →
         keeps_ties fst (scored order task cats budget items) l →
         l = ranked order task cats budget items.
Proof.
  split; [apply ranked_descending|].
  split; [apply sort_reverse_keeps_ties|]. split; [|split; [done|]].
  - unfold scored. rewrite map_map. simpl. apply map_id.
  - intros l Hd Ht. by apply sort_reverse_unique.
Qed.

Lemma ranking_is_stable_descending_witness :
  let task := "summarize pdf documents quickly" in
  let items := [generic_chatbot; code_helper; pdf_summarizer] in
  let l := [(5, pdf_summarizer); (1, code_helper); (-1, generic_chatbot)] in
  descending fst l
  ∧ keeps_ties fst
      (scored elements_order task (Some ["design"]) (Some "free") items) l
  ∧ l = ranked elements_order task (Some ["design"]) (Some "free") items.
Proof.
  intros task items l.
  assert (descending fst l) as Hd.
  { apply sorted_descending. repeat (constructor; simpl; try lia). }
  assert (keeps_ties fst
            (scored elements_order task (Some ["design"]) (Some "free") items) l)
    as Ht.
  { intros k.
    let sc := eval vm_compute in
      (scored elements_order task (Some ["design"]) (Some "free") items) in
    change (scored elements_order task (Some ["design"]) (Some "free") items)
      with sc.
    unfold l. cbn [List.filter fst].
    destruct (Z.eqb_spec 5 k), (Z.eqb_spec 1 k), (Z.eqb_spec (-1) k);
      try reflexivity; lia. }
  split; [exact Hd|]. split; [exact Ht|].
  exact (proj2 (proj2 (proj2 (proj2
           (ranking_is_stable_descending elements_order task
              (Some ["design"]) (Some "free") items)))) l Hd Ht).
Defined.

Example two_runs_agree :
  top10 elements_order "summarize pdf documents quickly" (Some ["design"])
        (Some "free") [generic_chatbot; code_helper; pdf_summarizer]
  = top10 reverse_order "summarize pdf documents quickly" (Some ["design"])
          (Some "free") [generic_chatbot; code_helper; pdf_summarizer].
Proof. vm_compute. reflexivity. Qed.

(** C9. Scoring is deterministic: two runs over the same fetched list,
    task, categories and budget return the same ordered top 10, whatever
    order each run visits the set of task words in. *)
Theorem recommendation_is_deterministic
    (run1 run2 : set_order) (task : string) (cats : option (list string))
    (budget : option string) :
  (∀ items : list Tool,
     top10 run1 task cats budget items = top10 run2 task cats budget items)
  ∧ (∀ (db : Database) (sc : Schemas),
       recommend_tools run1 task cats budget
       = recommend_tools run2 task cats budget).
Proof.
  assert (∀ items, top10 run1 task cats budget items
                   = top10 run2 task cats budget items) as Htop.
  { intros items. unfold top10, ranked. by rewrite (scored_order run1 run2). }
  split; [exact Htop|]. intros db sc. unfold recommend_tools.
  destruct (get_documents "tool" ∅ 200) as [docs|e]; [|done]. simpl.
  destruct (hydrate docs) as [items|e]; [|done]. simpl.
  by rewrite Htop.
Qed.

(** * The handlers *)

Section Handlers.
Context `{db : Database} `{sc : Schemas}.

Lemma hydrate_validated (docs : list document) (items : list Tool) :
  hydrate docs = Return items →
  Forall2 (λ d t, Tool_validate (delete "_id" d) = Return t) docs items.
Proof.
  revert items. induction docs as [|d docs IH]; intros items; cbn [hydrate].
  - intros [= <-]. constructor.
  - destruct (Tool_validate (delete "_id" d)) as [t|e] eqn:Et;
      simpl; [|discriminate].
    destruct (hydrate docs) as [ts|e] eqn:Ets; simpl; [|discriminate].
    intros [= <-]. constructor; [exact Et | by apply IH].
Qed.

Lemma add_tool_ok payload tool_id :
  create_document "tool" payload = Return tool_id →
  add_tool payload = Ok {[ "id" := tool_id ]}.
Proof. unfold add_tool. by intros ->. Qed.

Lemma add_tool_raise payload e :
  create_document "tool" payload = Raise e →
  add_tool payload = Error (mkHTTPException 500 (str e)).
Proof. unfold add_tool. by intros ->. Qed.

Lemma list_tools_ok q category pricing limit docs items :
  get_documents "tool" (build_filter category pricing) limit = Return docs →
  hydrate docs = Return items →
  list_tools q category pricing limit = Ok (search q items).
Proof. unfold list_tools. intros -> H. simpl. by rewrite H. Qed.

Lemma list_tools_raise q category pricing limit e :
  get_documents "tool" (build_filter category pricing) limit = Raise e →
  list_tools q category pricing limit = Error (mkHTTPException 500 (str e)).
Proof. unfold list_tools. by intros ->. Qed.

Lemma list_tools_inv q category pricing limit tools :
  list_tools q category pricing limit = Ok tools →
  ∃ docs items,
    get_documents "tool" (build_filter category pricing) limit = Return docs
    ∧ hydrate docs = Return items ∧ tools = search q items.
Proof.
  unfold list_tools.
  destruct (get_documents _ _ _) as [docs|e]; simpl; [|discriminate].
  destruct (hydrate docs) as [items|e] eqn:Eh; simpl; [|discriminate].
  intros [= <-]. by exists docs, items.
Qed.

Lemma recommend_tools_ok order task cats budget docs items :
  get_documents "tool" ∅ 200 = Return docs →
  hydrate docs = Return items →
  recommend_tools order task cats budget
  = Ok (top10 order task cats budget items).
Proof. unfold recommend_tools. intros -> H. simpl. by rewrite H. Qed.

Lemma recommend_tools_raise order task cats budget e :
  get_documents "tool" ∅ 200 = Raise e →
  recommend_tools order task cats budget
  = Error (mkHTTPException 500 (str e)).
Proof. unfold recommend_tools. by intros ->. Qed.
End Handlers.

(** ** Free-text search *)

#[global] Instance text_hit_dec (q : string) (t : Tool) : Decision (text_hit q t).
Proof. unfold text_hit. apply _. Defined.

Lemma text_match_spec (q : string) (t : Tool) :
  text_match (Text.lower q) t = true ↔ text_hit q t.
Proof.
  unfold text_match, text_hit.
  rewrite !orb_true_iff, existsb_exists, Exists_exists, !contains_spec.
  assert ((∃ x, In x (tags t)
                ∧ Text.contains (Text.lower x) (Text.lower q) = true)
          ↔ ∃ x, x ∈ tags t
                 ∧ Text.substring_of (Text.lower q) (Text.lower x)) as ->.
  { split; intros (x & Hin & Hx); exists x.
    - by rewrite list_elem_of_In, <- contains_spec.
    - by rewrite <- list_elem_of_In, contains_spec. }
  tauto.
Qed.

Lemma filter_bool_Prop {A} (f : A → bool) (P : A → Prop)
    `{!∀ x, Decision (P x)} (l : list A) :
  (∀ x, f x = true ↔ P x) → List.filter f l = filter P l.
Proof.
  intros Hf. induction l as [|x l IH]; [done|].
  cbn [List.filter]. rewrite filter_cons, IH.
  destruct (f x) eqn:E, (decide (P x)) as [Hp|Hp]; try done.
  - by apply Hf in E.
  - apply Hf in Hp. congruence.
Qed.

Lemma filter_all {A} (P : A → Prop) `{!∀ x, Decision (P x)} (l : list A) :
  (∀ x, P x) → filter P l = l.
Proof.
  intros HP. induction l as [|x l IH]; [done|].
  by rewrite filter_cons_True, IH.
Qed.

Lemma search_spec (q : string) (tools : list Tool) :
  search (Some q) tools = filter (text_hit q) tools.
Proof.
  unfold search. destruct q as [|c q]; cbn [given truthy].
  - symmetry. apply filter_all. intros t. left. apply substring_of_empty.
  - cbn zeta. apply filter_bool_Prop. intros t. apply text_match_spec.
Qed.

(** C5. With a query [q], a fetched tool is kept exactly when the
    lower-cased [q] occurs in its lower-cased name, in its lower-cased
    description or in one of its lower-cased tags, in fetch order; without
    [q] the fetched tools are returned unchanged. *)
Theorem search_keeps_exactly_the_hits
    (db : Database) (sc : Schemas) (q : string) (category pricing : option string)
    (limit : Z) (docs : list document) (items : list Tool) :
  get_documents "tool" (build_filter category pricing) limit = Return docs →
  hydrate docs = Return items →
  ∃ result,
    list_tools (Some q) category pricing limit = Ok result
    ∧ result = filter (text_hit q) items
    ∧ (∀ t, t ∈ result ↔
            t ∈ items
            ∧ (Text.substring_of (Text.lower q) (Text.lower (name t))
               ∨ Text.substring_of (Text.lower q) (Text.lower (description t))
               ∨ ∃ tag, tag ∈ tags t
                        ∧ Text.substring_of (Text.lower q) (Text.lower tag)))
    ∧ list_tools None category pricing limit = Ok items.
Proof.
  intros Hdocs Hitems. exists (filter (text_hit q) items).
  split; [|split; [done|split]].
  - rewrite (list_tools_ok _ _ _ _ _ _ Hdocs Hitems). by rewrite search_spec.
  - intros t. rewrite list_elem_of_filter. unfold text_hit.
    rewrite Exists_exists. tauto.
  - apply (list_tools_ok None _ _ _ _ _ Hdocs Hitems).
Qed.

Lemma search_keeps_exactly_the_hits_witness :
  let db := collection_db sample_store in
  let docs := take 50 (List.filter (matches (build_filter None None)) sample_store) in
  let items := [pdf_summarizer; generic_chatbot; code_helper] in
  @get_documents db "tool" (build_filter None None) 50 = Return docs
  ∧ @hydrate spec_schemas docs = Return items
  ∧ @list_tools db spec_schemas (Some "pDf suMM") None None 50
    = Ok [pdf_summarizer]
  ∧ @list_tools db spec_schemas (Some "Writes PROG") None None 50
    = Ok [code_helper]
  ∧ @list_tools db spec_schemas (Some "DEV") None None 50 = Ok [code_helper]
  ∧ @list_tools db spec_schemas (Some "E") None None 50 = Ok items
  ∧ @list_tools db spec_schemas (Some "refactoring") None None 50 = Ok []
  ∧ @list_tools db spec_schemas None None None 50 = Ok items.
Proof.
  intros db docs items.
  assert (@get_documents db "tool" (build_filter None None) 50 = Return docs)
    as Hdocs by reflexivity.
  assert (@hydrate spec_schemas docs = Return items) as Hitems
    by (vm_compute; reflexivity).
  pose proof (λ q, search_keeps_exactly_the_hits db spec_schemas q None None 50
                     docs items Hdocs Hitems) as Hsearch.
  split; [exact Hdocs|]. split; [exact Hitems|].
  repeat match goal with
         | |- list_tools (Some ?q) _ _ _ = _ ∧ _ =>
             split;
             [destruct (Hsearch q) as (result & -> & -> & _);
              vm_compute; reflexivity|]
         end.
  by destruct (Hsearch EmptyString) as (_ & _ & _ & _ & Hnone).
Defined.

(** C10. At the list endpoint an empty string acts like an absent value:
    [q=""] filters nothing, and [category=""] or [pricing=""] add nothing
    to the store filter. *)
Theorem empty_string_is_absent
    (db : Database) (sc : Schemas) (q category pricing : option string)
    (limit : Z) (tools : list Tool) :
  search (Some EmptyString) tools = tools
  ∧ build_filter (Some EmptyString) pricing = build_filter None pricing
  ∧ build_filter category (Some EmptyString) = build_filter category None
  ∧ build_filter (Some EmptyString) (Some EmptyString) = ∅
  ∧ list_tools (Some EmptyString) category pricing limit
    = list_tools None category pricing limit
  ∧ list_tools q (Some EmptyString) pricing limit
    = list_tools q None pricing limit
  ∧ list_tools q category (Some EmptyString) limit
    = list_tools q category None limit.
Proof. repeat split. Qed.

(** C8. When the store gateway raises during [POST /api/tools],
    [GET /api/tools] or [GET /api/recommend], the handler answers with an
    HTTP 500 error whose detail is the text of the exception, and with
    nothing else. *)
Theorem store_failure_is_http_500 (db : Database) (sc : Schemas) (e : exn) :
  (∀ payload,
     create_document "tool" payload = Raise e →
     add_tool payload = Error (mkHTTPException 500 (str e)))
  ∧ (∀ q category pricing limit,
       get_documents "tool" (build_filter category pricing) limit = Raise e →
       list_tools q category pricing limit
       = Error (mkHTTPException 500 (str e)))
  ∧ (∀ order task cats budget,
       get_documents "tool" ∅ 200 = Raise e →
       recommend_tools order task cats budget
       = Error (mkHTTPException 500 (str e))).
Proof.
  split; [|split].
  - intros payload. apply add_tool_raise.
  - intros q category pricing limit. apply list_tools_raise.
  - intros order task cats budget. apply recommend_tools_raise.
Qed.

Lemma store_failure_is_http_500_witness :
  let db := broken_db "connection refused" in
  let e := Exception "connection refused" in
  @create_document db "tool" pdf_summarizer = Raise e
  ∧ @add_tool db pdf_summarizer
    = Error (mkHTTPException 500 "connection refused")
  ∧ @get_documents db "tool" (build_filter (Some "coding") None) 50 = Raise e
  ∧ @list_tools db spec_schemas (Some "pdf") (Some "coding") None 50
    = Error (mkHTTPException 500 "connection refused")
  ∧ @get_documents db "tool" ∅ 200 = Raise e
  ∧ @recommend_tools elements_order "summarize" None None db spec_schemas
    = Error (mkHTTPException 500 "connection refused").
Proof.
  intros db e.
  destruct (store_failure_is_http_500 db spec_schemas e) as (Hadd & Hlist & Hrec).
  split; [reflexivity|]. split; [apply Hadd; reflexivity|].
  split; [reflexivity|]. split; [apply Hlist; reflexivity|].
  split; [reflexivity|]. apply Hrec; reflexivity.
Defined.

(** ** Categories and budget *)

Lemma score_tool_bare (order : set_order) (task : string) (tool : Tool) :
  (∀ w, w ∈ task_words task → ¬ earns tool w) →
  score_tool order task None None tool = 0.
Proof.
  intros Hno. rewrite score_tool_unfold, keyword_loop_set. cbn.
  assert (filter (earns tool) (task_words task) = ∅) as ->.
  { apply set_eq. intros w. rewrite elem_of_filter, elem_of_empty.
    split; [|done]. intros [He Hw]. by apply (Hno w). }
  by rewrite size_empty.
Qed.

(** C3. With a non-empty list of requested categories, a tool one of whose
    categories equals a requested one, ignoring case, gets 3 more than it
    would without categories, and every other tool, also one without
    categories, gets 1 less. With [categories=["design"]] a tool of category
    ["coding"] without keyword match and without budget match scores -1 and
    stands behind every tool whose score is at least 0. *)
Theorem category_boost_or_penalty
    (order : set_order) (task : string) (cs : list string)
    (budget : option string) (tool : Tool) :
  cs ≠ [] →
  (category_overlap cs tool →
     score_tool order task (Some cs) budget tool
     = score_tool order task None budget tool + 3)
  ∧ (¬ category_overlap cs tool →
     score_tool order task (Some cs) budget tool
     = score_tool order task None budget tool - 1)
  ∧ (categories tool = [] →
     score_tool order task (Some cs) budget tool
     = score_tool order task None budget tool - 1)
  ∧ (cs = ["design"] → categories tool = ["coding"] →
     (∀ w, w ∈ task_words task → ¬ earns tool w) →
     (∀ b, budget = Some b → pricing tool ≠ b) →
     score_tool order task (Some cs) budget tool = -1
     ∧ ∀ items i j z' tool',
         ranked order task (Some cs) budget items !! i = Some (-1, tool) →
         ranked order task (Some cs) budget items !! j = Some (z', tool') →
         0 ≤ z' → (j < i)%nat).
Proof.
  intros Hcs.
  assert (¬ category_overlap cs tool →
          score_tool order task (Some cs) budget tool
          = score_tool order task None budget tool - 1) as Hmiss.
  { intros Hno. rewrite score_tool_categories by done.
    destruct (category_hit cs tool) eqn:E; [|lia].
    by apply category_hit_spec in E. }
  split; [|split; [exact Hmiss|split]].
  - intros Hhit. rewrite score_tool_categories by done.
    apply category_hit_spec in Hhit. rewrite Hhit. lia.
  - intros Hnil. apply Hmiss. intros (c & cat & _ & Hcat & _).
    rewrite Hnil in Hcat. by apply not_elem_of_nil in Hcat.
  - intros -> Hcoding Hwords Hbudget.
    assert (score_tool order task (Some ["design"]) budget tool = -1) as Hscore.
    { rewrite Hmiss.
      - assert (score_tool order task None budget tool = 0) as ->; [|done].
        destruct budget as [b|]; [|by apply score_tool_bare].
        destruct (decide (b = EmptyString)) as [->|Hb].
        + rewrite score_tool_budget_empty. by apply score_tool_bare.
        + rewrite score_tool_budget by done.
          rewrite (score_tool_bare _ _ _ Hwords).
          destruct (String.eqb_spec (pricing tool) b) as [Heq|_]; [|done].
          by destruct (Hbudget b eq_refl).
      - intros (c & cat & Hc & Hcat & Heq). rewrite Hcoding in Hcat.
        apply list_elem_of_singleton in Hc, Hcat. subst. discriminate. }
    split; [exact Hscore|].
    intros items i j z' tool' Hi Hj Hz'.
    eapply ranked_before; [exact Hj | exact Hi | lia].
Qed.

Lemma category_boost_or_penalty_witness :
  let cs := ["design"] in
  let task := "summarize pdf documents" in
  let items := [code_helper; pdf_summarizer] in
  cs ≠ []
  ∧ categories code_helper = ["coding"]
  ∧ score_tool elements_order task (Some cs) None code_helper = -1
  ∧ ranked elements_order task (Some cs) None items !! 1%nat
    = Some (-1, code_helper)
  ∧ ranked elements_order task (Some cs) None items !! 0%nat
    = Some (5, pdf_summarizer)
  ∧ (0 < 1)%nat
  ∧ score_tool elements_order task (Some ["Design"; "CODING"]) None code_helper
    = score_tool elements_order task None None code_helper + 3.
Proof.
  intros cs task items.
  assert (cs ≠ []) as Hcs by discriminate.
  destruct (category_boost_or_penalty elements_order task cs None code_helper Hcs)
    as (_ & _ & _ & Hex).
  assert (∀ w, w ∈ task_words task → ¬ earns code_helper w) as Hwords.
  { intros w Hw. unfold task_words in Hw. apply elem_of_list_to_set in Hw.
    let l := eval vm_compute in (Text.split (Text.lower task)) in
      change (w ∈ l) in Hw.
    unfold earns. rewrite <- contains_spec.
    intros [_ Hc].
    repeat (apply elem_of_cons in Hw as [->|Hw]; [vm_compute in Hc; discriminate|]).
    by apply not_elem_of_nil in Hw. }
  assert (∀ b : string, None = Some b → pricing code_helper ≠ b) as Hbudget
    by discriminate.
  assert (ranked elements_order task (Some cs) None items !! 1%nat
          = Some (-1, code_helper)) as H1 by (vm_compute; reflexivity).
  assert (ranked elements_order task (Some cs) None items !! 0%nat
          = Some (5, pdf_summarizer)) as H0 by (vm_compute; reflexivity).
  split; [exact Hcs|]. split; [reflexivity|].
  split; [exact (proj1 (Hex eq_refl eq_refl Hwords Hbudget))|].
  split; [exact H1|]. split; [exact H0|]. split.
  - refine (proj2 (Hex eq_refl eq_refl Hwords Hbudget)
              items 1%nat 0%nat 5 pdf_summarizer H1 H0 _). lia.
  - assert (["Design"; "CODING"] ≠ []) as Hcs' by discriminate.
    destruct (category_boost_or_penalty elements_order task ["Design"; "CODING"]
                None code_helper Hcs') as (Hhit & _).
    refine (Hhit _). exists "CODING", "coding".
    split; [repeat constructor|]. split; [repeat constructor|]. reflexivity.
Defined.

(** C4, as stated for every supplied budget, fails for the empty budget:
    a tool whose pricing is the empty string too gets nothing. *)
Lemma empty_budget_earns_nothing :
  ¬ (∀ (b : string) (tool : Tool),
       pricing tool = b →
       score_tool elements_order "anything" None (Some b) tool
       = score_tool elements_order "anything" None None tool + 2).
Proof.
  intros H.
  specialize (H EmptyString (mkTool "Unpriced" "no price given" [] [] "" [])
                eq_refl).
  vm_compute in H. discriminate.
Qed.

(** C4, amended. With a non-empty budget, a tool gets 2 more exactly when
    its pricing is the budget, compared as strings with case; of two tools
    that tie on everything else, the one whose pricing is the budget stands
    strictly before the other. An empty budget is treated as an absent one:
    it adds nothing to any score and changes no ranking. *)
Theorem budget_match_bonus
    (order : set_order) (task : string) (cats : option (list string)) :
  (∀ b, b ≠ EmptyString →
     (∀ tool, pricing tool = b →
        score_tool order task cats (Some b) tool
        = score_tool order task cats None tool + 2)
     ∧ (∀ tool, pricing tool ≠ b →
        score_tool order task cats (Some b) tool
        = score_tool order task cats None tool)
     ∧ (∀ items i j z1 z2 t1 t2,
          score_tool order task cats None t1
          = score_tool order task cats None t2 →
          pricing t1 = b → pricing t2 ≠ b →
          ranked order task cats (Some b) items !! i = Some (z1, t1) →
          ranked order task cats (Some b) items !! j = Some (z2, t2) →
          (i < j)%nat))
  ∧ (∀ tool,
       score_tool order task cats (Some EmptyString) tool
       = score_tool order task cats None tool)
  ∧ (∀ items,
       ranked order task cats (Some EmptyString) items
       = ranked order task cats None items)
  ∧ (∀ items,
       top10 order task cats (Some EmptyString) items
       = top10 order task cats None items)
  ∧ (∀ (db : Database) (sc : Schemas),
       recommend_tools order task cats (Some EmptyString)
       = recommend_tools order task cats None).
Proof.
  split; [|by repeat split].
  intros b Hb.
  assert (∀ tool, pricing tool = b →
            score_tool order task cats (Some b) tool
            = score_tool order task cats None tool + 2) as Hyes.
  { intros tool Hp. rewrite score_tool_budget by done.
    by rewrite (proj2 (String.eqb_eq _ _) Hp). }
  assert (∀ tool, pricing tool ≠ b →
            score_tool order task cats (Some b) tool
            = score_tool order task cats None tool) as Hno.
  { intros tool Hp. rewrite score_tool_budget by done.
    rewrite (proj2 (String.eqb_neq _ _) Hp). lia. }
  split; [exact Hyes|]. split; [exact Hno|].
  intros items i j z1 z2 t1 t2 Htie Hp1 Hp2 Hi Hj.
  eapply ranked_before; [exact Hi | exact Hj |].
  apply ranked_entry in Hi as [-> _]. apply ranked_entry in Hj as [-> _].
  rewrite (Hyes t1 Hp1), (Hno t2 Hp2). lia.
Qed.

Lemma budget_match_bonus_witness :
  let b := "free" in
  let task := "translate subtitles" in
  let items := [generic_chatbot; code_helper] in
  let unpriced := mkTool "Unpriced" "no price given" [] [] "" [] in
  b ≠ EmptyString
  ∧ score_tool elements_order task None None code_helper
    = score_tool elements_order task None None generic_chatbot
  ∧ pricing code_helper = b ∧ pricing generic_chatbot ≠ b
  ∧ score_tool elements_order task None (Some b) code_helper = 2
  ∧ score_tool elements_order task None (Some b) generic_chatbot = 0
  ∧ score_tool elements_order task None (Some "Free") code_helper = 0
  ∧ ranked elements_order task None (Some b) items !! 0%nat
    = Some (2, code_helper)
  ∧ ranked elements_order task None (Some b) items !! 1%nat
    = Some (0, generic_chatbot)
  ∧ (0 < 1)%nat
  ∧ score_tool elements_order task None (Some EmptyString) unpriced = 0.
Proof.
  intros b task items unpriced.
  destruct (budget_match_bonus elements_order task None)
    as (Hgiven & Hempty & _).
  assert (b ≠ EmptyString) as Hb by discriminate.
  destruct (Hgiven b Hb) as (Hyes & Hno & Hrank).
  assert (score_tool elements_order task None None code_helper
          = score_tool elements_order task None None generic_chatbot) as Htie
    by (vm_compute; reflexivity).
  assert (pricing code_helper = b) as Hp1 by reflexivity.
  assert (pricing generic_chatbot ≠ b) as Hp2 by discriminate.
  assert (ranked elements_order task None (Some b) items !! 0%nat
          = Some (2, code_helper)) as H0 by (vm_compute; reflexivity).
  assert (ranked elements_order task None (Some b) items !! 1%nat
          = Some (0, generic_chatbot)) as H1 by (vm_compute; reflexivity).
  assert ("Free" ≠ EmptyString) as HF by discriminate.
  assert (pricing code_helper ≠ "Free") as Hp3 by discriminate.
  repeat (split; [assumption|]).
  split; [rewrite (Hyes code_helper Hp1); vm_compute; reflexivity|].
  split; [rewrite (Hno generic_chatbot Hp2); vm_compute; reflexivity|].
  split.
  { rewrite (proj1 (proj2 (Hgiven "Free" HF)) code_helper Hp3).
    vm_compute. reflexivity. }
  repeat (split; [assumption|]).
  split; [exact (Hrank items 0%nat 1%nat 2 0 code_helper generic_chatbot
                   Htie Hp1 Hp2 H0 H1)|].
  rewrite (Hempty unpriced). vm_compute. reflexivity.
Defined.

(** ** No score floor *)

(** In a descending list that has an element with a negative key, the
    place right after the elements with non-negative key holds such one. *)
Lemma sorted_first_negative {A} (key : A → Z) (l : list A) (e : A) :
  StronglySorted (λ x y, key y ≤ key x) l →
  e ∈ l → key e < 0 →
  ∃ e', l !! length (filter (λ x, 0 ≤ key x) l) = Some e' ∧ key e' < 0.
Proof.
  induction 1 as [|a l Hl IH Ha]; intros Hin Hneg.
  - by apply not_elem_of_nil in Hin.
  - rewrite filter_cons. destruct (decide (0 ≤ key a)) as [Hpos|Hnp].
    + cbn [length]. apply elem_of_cons in Hin as [->|Hin]; [lia|].
      by apply IH.
    + assert (filter (λ x, 0 ≤ key x) l = []) as ->.
      { destruct (filter (λ x, 0 ≤ key x) l) as [|x xs] eqn:E; [done|].
        assert (x ∈ filter (λ x, 0 ≤ key x) l) as Hx by (rewrite E; left).
        apply list_elem_of_filter in Hx as [Hx0 Hxl].
        rewrite Forall_forall in Ha. apply Ha in Hxl. lia. }
      exists a. split; [done|lia].
Qed.

Lemma length_filter_scored order task cats budget (items : list Tool) :
  length (filter (λ e : Z * Tool, 0 ≤ e.1) (scored order task cats budget items))
  = length (filter (λ t, 0 ≤ score_tool order task cats budget t) items).
Proof.
  unfold scored. induction items as [|t items IH]; [done|].
  cbn [map]. rewrite !filter_cons. cbn [fst].
  destruct (decide (0 ≤ score_tool order task cats budget t));
    cbn [length]; by rewrite IH.
Qed.

(** C6. The recommendation endpoint asks the store for up to 200 tools
    with the empty filter and returns the first 10 entries of the sorted
    list, so never more than 10. There is no score floor: all fetched tools
    compete, and when fewer than 10 of them have a non-negative score a
    fetched tool with a negative score is part of the result. *)
Theorem recommend_returns_first_ten
    (db : Database) (sc : Schemas) (order : set_order) (task : string)
    (cats : option (list string)) (budget : option string)
    (docs : list document) (items : list Tool) :
  get_documents "tool" ∅ 200 = Return docs →
  hydrate docs = Return items →
  ∃ result,
    recommend_tools order task cats budget = Ok result
    ∧ result = map snd (take 10 (ranked order task cats budget items))
    ∧ (length result ≤ 10)%nat
    ∧ length result = (10 `min` length items)%nat
    ∧ ((length (filter (λ t, (0 ≤ score_tool order task cats budget t)%Z)
                       items) < 10)%nat →
       (∃ t, t ∈ items ∧ score_tool order task cats budget t < 0) →
       ∃ t, t ∈ result ∧ score_tool order task cats budget t < 0).
Proof.
  intros Hdocs Hitems. exists (top10 order task cats budget items).
  split; [by apply recommend_tools_ok with docs|]. split; [done|].
  split; [rewrite length_top10; lia|]. split; [apply length_top10|].
  intros Hfew (t & Ht & Hneg).
  pose proof (sort_reverse_sorted fst (scored order task cats budget items))
    as Hsorted. fold (ranked order task cats budget items) in Hsorted.
  destruct (sorted_first_negative fst _ (score_tool order task cats budget t, t)
              Hsorted) as ((z' & t') & Hk & Hz'); [|done|].
  { rewrite ranked_Permutation. unfold scored.
    apply list_elem_of_fmap. by exists t. }
  assert (length (filter (λ e : Z * Tool, (0 ≤ e.1)%Z)
                         (ranked order task cats budget items)) < 10)%nat
    as Hk10.
  { rewrite ranked_Permutation, length_filter_scored. exact Hfew. }
  exists t'. pose proof (ranked_entry _ _ _ _ _ _ _ _ Hk) as [-> _].
  split; [|exact Hz'].
  unfold top10. apply list_elem_of_fmap. exists (score_tool order task cats budget t', t').
  split; [done|]. apply elem_of_take. eauto.
Qed.

Lemma recommend_returns_first_ten_witness :
  let db := collection_db sample_store in
  let docs := take 200 (List.filter (matches ∅) sample_store) in
  let items := [pdf_summarizer; generic_chatbot; code_helper] in
  let task := "summarize pdf documents quickly" in
  let score := score_tool elements_order task (Some ["design"]) (Some "free") in
  @get_documents db "tool" ∅ 200 = Return docs
  ∧ @hydrate spec_schemas docs = Return items
  ∧ @recommend_tools elements_order task (Some ["design"]) (Some "free")
      db spec_schemas
    = Ok [pdf_summarizer; code_helper; generic_chatbot]
  ∧ (length (filter (λ t, (0 ≤ score t)%Z) items) < 10)%nat
  ∧ generic_chatbot ∈ items ∧ score generic_chatbot < 0
  ∧ ∃ t, t ∈ [pdf_summarizer; code_helper; generic_chatbot] ∧ score t < 0.
Proof.
  intros db docs items task score.
  assert (@get_documents db "tool" ∅ 200 = Return docs) as Hdocs
    by reflexivity.
  assert (@hydrate spec_schemas docs = Return items) as Hitems
    by (vm_compute; reflexivity).
  assert (length (filter (λ t, (0 ≤ score t)%Z) items) < 10)%nat as Hfew
    by (vm_compute; lia).
  assert (generic_chatbot ∈ items) as Hin by (right; left).
  assert (score generic_chatbot < 0) as Hneg by (vm_compute; reflexivity).
  destruct (recommend_returns_first_ten db spec_schemas elements_order task
              (Some ["design"]) (Some "free") docs items Hdocs Hitems)
    as (result & Hres & Hresult & _ & _ & Hfloor).
  assert (result = [pdf_summarizer; code_helper; generic_chatbot]) as Hr
    by (rewrite Hresult; vm_compute; reflexivity).
  rewrite Hr in Hres, Hfloor.
  repeat (split; [assumption|]).
  apply Hfloor; [exact Hfew|]. exists generic_chatbot. by split.
Defined.

(** * The filter builder *)

Lemma matches_spec (f : mongo_filter) (d : document) :
  matches f d = true ↔ ∀ k c, f !! k = Some c → cond_holds c (d !! k) = true.
Proof.
  unfold matches. rewrite forallb_forall. split.
  - intros H k c Hk. apply (H (k, c)).
    by apply list_elem_of_In, elem_of_map_to_list.
  - intros H [k c] Hin. apply list_elem_of_In, elem_of_map_to_list in Hin.
    by apply H.
Qed.

Lemma cond_holds_In (c : string) (stored : option value) :
  cond_holds (In_ [c]) stored = true ↔ ∃ l, stored = Some (VList l) ∧ c ∈ l.
Proof.
  destruct stored as [[s|l|n]|]; cbn [cond_holds];
    try (split; [discriminate | by intros (l' & [=] & _)]).
  rewrite existsb_exists. split.
  - intros (x & Hx & Heq). cbn [existsb] in Heq. rewrite orb_false_r in Heq.
    apply String.eqb_eq in Heq as ->. exists l. by rewrite list_elem_of_In.
  - intros (l' & [= <-] & Hc). exists c. rewrite <- list_elem_of_In.
    split; [done|]. cbn [existsb]. by rewrite String.eqb_refl.
Qed.

Lemma cond_holds_Eq (p : string) (stored : option value) :
  cond_holds (Eq_ p) stored = true ↔ stored = Some (VStr p).
Proof.
  destruct stored as [[s|l|n]|]; cbn [cond_holds];
    try (split; [discriminate | by intros [=]]).
  rewrite String.eqb_eq. split; [by intros -> | by intros [= ->]].
Qed.

Lemma build_filter_both (c p : string) :
  c ≠ EmptyString → p ≠ EmptyString →
  build_filter (Some c) (Some p)
  = <[ "pricing" := Eq_ p ]> {[ "categories" := In_ [c] ]}.
Proof. destruct c, p; done. Qed.

Lemma matches_both (c p : string) (d : document) :
  matches (<[ "pricing" := Eq_ p ]> {[ "categories" := In_ [c] ]}) d = true
  ↔ (∃ l, d !! "categories" = Some (VList l) ∧ c ∈ l)
    ∧ d !! "pricing" = Some (VStr p).
Proof.
  rewrite matches_spec, <- cond_holds_In, <- cond_holds_Eq. split.
  - intros H. split.
    + apply H. rewrite lookup_insert_ne by done. apply lookup_singleton_eq.
    + apply H. apply lookup_insert_eq.
  - intros [Hc Hp] k c0 Hk.
    apply lookup_insert_Some in Hk as [[<- <-]|[_ Hk]]; [done|].
    by apply lookup_singleton_Some in Hk as [<- <-].
Qed.

Lemma collection_db_sound (store : list document) :
  @fetch_sound (collection_db store).
Proof.
  intros kind f limit docs [= <-]. apply Forall_forall. intros d Hd.
  apply elem_of_take in Hd as (i & Hi & _).
  apply list_elem_of_lookup_2, list_elem_of_In, filter_In in Hi. tauto.
Qed.

Lemma build_filter_categories (c : string) (p : option string) :
  c ≠ EmptyString →
  build_filter (Some c) p !! "categories" = Some (In_ [c]).
Proof.
  intros Hc. destruct c as [|a c]; [done|]. unfold build_filter.
  cbn [given truthy]. destruct (given p).
  - rewrite lookup_insert_ne by done. apply lookup_insert_eq.
  - apply lookup_insert_eq.
Qed.

Lemma build_filter_pricing (c : option string) (p : string) :
  p ≠ EmptyString →
  build_filter c (Some p) !! "pricing" = Some (Eq_ p).
Proof.
  intros Hp. destruct p as [|a p]; [done|]. unfold build_filter.
  cbn [given truthy]. apply lookup_insert_eq.
Qed.

(** C7, as stated for every present category and pricing, fails for the
    empty ones: the request [category=""&pricing=paid] is answered with a
    tool that has no category [""], and the request
    [category=coding&pricing=""] with a tool whose pricing is not [""],
    because the filter carries no condition for an empty value. *)
Lemma empty_category_is_not_filtered :
  build_filter (Some EmptyString) (Some "paid") !! "categories" = None
  ∧ @list_tools (collection_db sample_store) spec_schemas
      None (Some EmptyString) (Some "paid") 50
    = Ok [generic_chatbot]
  ∧ (EmptyString ∉ categories generic_chatbot)
  ∧ build_filter (Some "coding") (Some EmptyString) !! "pricing" = None
  ∧ @list_tools (collection_db sample_store) spec_schemas
      None (Some "coding") (Some EmptyString) 50
    = Ok [code_helper]
  ∧ pricing code_helper ≠ EmptyString.
Proof.
  split; [reflexivity|]. split; [vm_compute; reflexivity|]. split.
  { intros H. cbn in H. apply list_elem_of_singleton in H. discriminate. }
  split; [reflexivity|]. split; [vm_compute; reflexivity|]. discriminate.
Qed.

(** C7, amended. For a non-empty category and a non-empty pricing, the
    filter builder writes the membership condition on [categories] when the
    category is given, the equality condition on [pricing] when the pricing
    is given, both when both are given, and nothing when neither is. A
    document passes the filter of both exactly when its stored categories
    contain the category and its stored pricing is the given one, so a
    request with both returns only tools validated from such documents.
    An empty category or pricing adds no condition: it gives the filter
    and the answer of the absent one. *)
Theorem filter_builder_composes :
  (∀ category pricing : string,
     category ≠ EmptyString → pricing ≠ EmptyString →
     build_filter (Some category) None = {[ "categories" := In_ [category] ]}
     ∧ build_filter None (Some pricing) = {[ "pricing" := Eq_ pricing ]}
     ∧ build_filter (Some category) (Some pricing)
       = <[ "pricing" := Eq_ pricing ]> {[ "categories" := In_ [category] ]}
     ∧ build_filter None None = ∅
     ∧ (∀ d, matches (build_filter (Some category) (Some pricing)) d = true
             ↔ (∃ l, d !! "categories" = Some (VList l) ∧ category ∈ l)
               ∧ d !! "pricing" = Some (VStr pricing))
     ∧ (∀ d, matches (build_filter None None) d = true)
     ∧ (∀ (db : Database) (sc : Schemas) q limit tools,
          fetch_sound →
          list_tools q (Some category) (Some pricing) limit = Ok tools →
          ∀ t, t ∈ tools →
            ∃ d, Tool_validate (delete "_id" d) = Return t
                 ∧ (∃ l, d !! "categories" = Some (VList l) ∧ category ∈ l)
                 ∧ d !! "pricing" = Some (VStr pricing)))
  ∧ (∀ (category : string) (pricing : option string) d,
       category ≠ EmptyString →
       matches (build_filter (Some category) pricing) d = true →
       ∃ l, d !! "categories" = Some (VList l) ∧ category ∈ l)
  ∧ (∀ (category : option string) (pricing : string) d,
       pricing ≠ EmptyString →
       matches (build_filter category (Some pricing)) d = true →
       d !! "pricing" = Some (VStr pricing))
  ∧ (∀ pricing : option string,
       build_filter (Some EmptyString) pricing = build_filter None pricing)
  ∧ (∀ category : option string,
       build_filter category (Some EmptyString) = build_filter category None)
  ∧ build_filter (Some EmptyString) (Some EmptyString) = ∅
  ∧ (∀ d, matches (build_filter (Some EmptyString) (Some EmptyString)) d = true)
  ∧ (∀ (db : Database) (sc : Schemas) q (category pricing : option string) limit,
       list_tools q (Some EmptyString) pricing limit
       = list_tools q None pricing limit
       ∧ list_tools q category (Some EmptyString) limit
         = list_tools q category None limit).
Proof.
  split; [|split; [|split; [|by repeat split]]].
  - intros category pricing Hc Hp.
    split; [by destruct category|]. split; [by destruct pricing|].
    split; [by apply build_filter_both|]. split; [done|].
    split; [intros d; rewrite build_filter_both by done; apply matches_both|].
    split; [done|].
    intros db sc q limit tools Hsound Hok t Ht.
    apply list_tools_inv in Hok as (docs & items & Hdocs & Hitems & ->).
    assert (t ∈ items) as Hin.
    { unfold search in Ht. destruct (given q); [|done].
      apply list_elem_of_In, filter_In in Ht as [Ht _]. by apply list_elem_of_In. }
    apply hydrate_validated in Hitems.
    apply list_elem_of_lookup in Hin as [i Hi].
    destruct (Forall2_lookup_r _ _ _ _ _ Hitems Hi) as (d & Hd & Hval).
    exists d. split; [exact Hval|].
    apply Hsound in Hdocs. rewrite Forall_forall in Hdocs.
    apply list_elem_of_lookup_2, Hdocs in Hd.
    rewrite build_filter_both in Hd by done. by apply matches_both in Hd.
  - intros category pricing d Hc Hm. apply cond_holds_In.
    rewrite matches_spec in Hm. apply Hm. by apply build_filter_categories.
  - intros category pricing d Hp Hm. apply cond_holds_Eq.
    rewrite matches_spec in Hm. apply Hm. by apply build_filter_pricing.
Qed.

Lemma filter_builder_composes_witness :
  let db := collection_db sample_store in
  "coding" ≠ EmptyString ∧ "free" ≠ EmptyString
  ∧ @fetch_sound db
  ∧ @list_tools db spec_schemas None (Some "coding") (Some "free") 50
    = Ok [code_helper]
  ∧ (∃ d, spec_Tool (delete "_id" d) = Return code_helper
          ∧ (∃ l, d !! "categories" = Some (VList l) ∧ "coding" ∈ l)
          ∧ d !! "pricing" = Some (VStr "free"))
  ∧ @list_tools db spec_schemas None (Some "Coding") (Some "free") 50 = Ok []
  ∧ @list_tools db spec_schemas None (Some "coding") (Some "Free") 50 = Ok []
  ∧ @list_tools db spec_schemas None (Some EmptyString) (Some "free") 50
    = @list_tools db spec_schemas None None (Some "free") 50.
Proof.
  intros db.
  destruct filter_builder_composes as (Hboth & _ & _ & _ & _ & _ & _ & Hempty).
  assert ("coding" ≠ EmptyString) as Hc by discriminate.
  assert ("free" ≠ EmptyString) as Hp by discriminate.
  assert (@list_tools db spec_schemas None (Some "coding") (Some "free") 50
          = Ok [code_helper]) as Hok by (vm_compute; reflexivity).
  split; [exact Hc|]. split; [exact Hp|].
  split; [apply collection_db_sound|]. split; [exact Hok|].
  split.
  { refine (proj2 (proj2 (proj2 (proj2 (proj2 (proj2
              (Hboth "coding" "free" Hc Hp))))))
              db spec_schemas None 50 [code_helper]
              (collection_db_sound sample_store) Hok code_helper _).
    left. }
  split; [vm_compute; reflexivity|]. split; [vm_compute; reflexivity|].
  exact (proj1 (Hempty db spec_schemas None None (Some "free") 50)).
Defined.

(** * Further properties of the handlers *)

(** ** Hydration *)

Section Hydration.
Context `{sc : Schemas}.

Lemma hydrate_cons (d : document) (docs : list document) :
  hydrate (d :: docs)
  = match Tool_validate (delete "_id" d) with
    | Return t =>
        match hydrate docs with
        | Return ts => Return (t :: ts)
        | Raise e => Raise e
        end
    | Raise e => Raise e
    end.
Proof.
  cbn [hydrate]. destruct (Tool_validate (delete "_id" d)); [|done].
  simpl. by destruct (hydrate docs).
Qed.

(** Hydration fails with the error of the first document, in fetch order,
    that does not validate. *)
Lemma hydrate_raise_iff (docs : list document) (e : exn) :
  hydrate docs = Raise e ↔
  ∃ i d, docs !! i = Some d
         ∧ Tool_validate (delete "_id" d) = Raise e
         ∧ ∀ j d', (j < i)%nat → docs !! j = Some d' →
                   ∃ t, Tool_validate (delete "_id" d') = Return t.
Proof.
  induction docs as [|d0 docs IH].
  - split; [discriminate|]. by intros (i & d & Hi & _).
  - rewrite hydrate_cons.
    destruct (Tool_validate (delete "_id" d0)) as [t0|e0] eqn:E0.
    + destruct (hydrate docs) as [ts|e'] eqn:Eh.
      * split; [discriminate|]. intros (i & d & Hi & Hd & Hbefore).
        destruct i as [|i]; [simpl in Hi; congruence|].
        assert (Return ts = Raise e) as Habs; [|discriminate].
        apply IH. exists i, d. split; [done|]. split; [done|].
        intros j d' Hj Hd'. apply (Hbefore (S j) d'); [lia|done].
      * split.
        -- intros [= ->]. destruct (proj1 IH eq_refl) as (i & d & Hi & Hd & Hb).
           exists (S i), d. split; [done|]. split; [done|].
           intros [|j] d' Hj Hd'; simpl in Hd'.
           ++ injection Hd' as <-. eauto.
           ++ apply (Hb j d'); [lia|done].
        -- intros (i & d & Hi & Hd & Hbefore).
           destruct i as [|i]; [simpl in Hi; congruence|].
           apply IH. exists i, d. split; [done|]. split; [done|].
           intros j d' Hj Hd'. apply (Hbefore (S j) d'); [lia|done].
    + split.
      * intros [= ->]. exists 0%nat, d0. split; [done|]. split; [done|].
        intros j d' Hj. lia.
      * intros (i & d & Hi & Hd & Hbefore). destruct i as [|i].
        -- simpl in Hi. congruence.
        -- destruct (Hbefore 0%nat d0) as [t Ht]; [lia|done|]. congruence.
Qed.

Lemma hydrate_length (docs : list document) (items : list Tool) :
  hydrate docs = Return items → length items = length docs.
Proof.
  intros H. apply hydrate_validated in H.
  symmetry. by eapply Forall2_length.
Qed.

Lemma hydrate_ext (docs docs' : list document) :
  map (delete "_id") docs = map (delete "_id") docs' →
  hydrate docs = hydrate docs'.
Proof.
  revert docs'. induction docs as [|d docs IH]; intros [|d' docs'] H;
    try discriminate; [done|].
  injection H as Hd Hdocs. rewrite !hydrate_cons, Hd.
  by rewrite (IH docs' Hdocs).
Qed.
End Hydration.

(** X1. A fetched document that does not validate aborts the list and the
    recommendation handler: the answer is HTTP 500 with the text of the
    error of the first such document in fetch order, and no tool is
    returned. *)
Theorem validation_failure_is_http_500
    (db : Database) (sc : Schemas) (docs : list document)
    (i : nat) (d : document) (e : exn) :
  docs !! i = Some d →
  Tool_validate (delete "_id" d) = Raise e →
  (∀ j d', (j < i)%nat → docs !! j = Some d' →
           ∃ t, Tool_validate (delete "_id" d') = Return t) →
  (∀ q category pricing limit,
     get_documents "tool" (build_filter category pricing) limit = Return docs →
     list_tools q category pricing limit
     = Error (mkHTTPException 500 (str e)))
  ∧ (∀ order task cats budget,
       get_documents "tool" ∅ 200 = Return docs →
       recommend_tools order task cats budget
       = Error (mkHTTPException 500 (str e))).
Proof.
  intros Hi Hd Hbefore.
  assert (hydrate docs = Raise e) as Hraise.
  { apply hydrate_raise_iff. by exists i, d. }
  split.
  - intros q category pricing limit Hdocs. unfold list_tools.
    rewrite Hdocs. simpl. by rewrite Hraise.
  - intros order task cats budget Hdocs. unfold recommend_tools.
    rewrite Hdocs. simpl. by rewrite Hraise.
Qed.

Lemma validation_failure_is_http_500_witness :
  let db := collection_db faulty_store in
  let docs := take 50 (List.filter (matches (build_filter None None)) faulty_store) in
  docs !! 1%nat = Some nameless_document
  ∧ spec_Tool (delete "_id" nameless_document)
    = Raise (Exception "validation error: name")
  ∧ @list_tools db spec_schemas (Some "pdf") None None 50
    = Error (mkHTTPException 500 "validation error: name").
Proof.
  intros db docs.
  assert (docs !! 1%nat = Some nameless_document) as Hi
    by (vm_compute; reflexivity).
  assert (@Tool_validate spec_schemas (delete "_id" nameless_document)
          = Raise (Exception "validation error: name")) as Hd
    by (vm_compute; reflexivity).
  split; [exact Hi|]. split; [exact Hd|].
  refine (proj1 (validation_failure_is_http_500 db spec_schemas docs 1%nat
                   nameless_document _ Hi Hd _) (Some "pdf") None None 50 _).
  - intros [|j] d' Hj Hd'; [|lia].
    exists pdf_summarizer. injection Hd' as <-. vm_compute. reflexivity.
  - reflexivity.
Defined.

Lemma delete_id_document_of (id id' : Z) (t : Tool) :
  delete "_id" (document_of id t) = delete "_id" (document_of id' t).
Proof. unfold document_of. by rewrite !delete_insert_eq. Qed.

(** X3. The store-assigned ["_id"] never reaches an answer: two fetches
    whose documents agree once ["_id"] is removed give the same answer of
    the list handler, and hydration returns one tool per document. *)
Theorem answers_ignore_ids
    (db1 db2 : Database) (sc : Schemas) (q category pricing : option string)
    (limit : Z) (docs1 docs2 : list document) :
  @get_documents db1 "tool" (build_filter category pricing) limit = Return docs1 →
  @get_documents db2 "tool" (build_filter category pricing) limit = Return docs2 →
  map (delete "_id") docs1 = map (delete "_id") docs2 →
  @list_tools db1 sc q category pricing limit
  = @list_tools db2 sc q category pricing limit
  ∧ (∀ items, hydrate docs1 = Return items → length items = length docs1)
  ∧ (∀ id, hydrate (map (insert "_id" id) docs1) = hydrate docs1).
Proof.
  intros H1 H2 Hsame. split; [|split].
  - unfold list_tools. rewrite H1, H2. simpl.
    by rewrite (hydrate_ext docs1 docs2 Hsame).
  - intros items. apply hydrate_length.
  - intros id. apply hydrate_ext. rewrite map_map. apply map_ext.
    intros d. apply delete_insert_eq.
Qed.

Lemma answers_ignore_ids_witness :
  let store1 := [document_of 1 pdf_summarizer; document_of 2 code_helper] in
  let store2 := [document_of 8 pdf_summarizer; document_of 9 code_helper] in
  let docs1 := take 50 (List.filter (matches (build_filter None None)) store1) in
  let docs2 := take 50 (List.filter (matches (build_filter None None)) store2) in
  @get_documents (collection_db store1) "tool" (build_filter None None) 50
  = Return docs1
  ∧ @get_documents (collection_db store2) "tool" (build_filter None None) 50
    = Return docs2
  ∧ @list_tools (collection_db store1) spec_schemas (Some "code") None None 50
    = @list_tools (collection_db store2) spec_schemas (Some "code") None None 50.
Proof.
  intros store1 store2 docs1 docs2.
  split; [reflexivity|]. split; [reflexivity|].
  refine (proj1 (answers_ignore_ids (collection_db store1) (collection_db store2)
                   spec_schemas (Some "code") None None 50 docs1 docs2
                   eq_refl eq_refl _)).
  change (map (delete "_id") store1 = map (delete "_id") store2).
  unfold store1, store2. cbn [map].
  by rewrite (delete_id_document_of 1 8), (delete_id_document_of 2 9).
Defined.

(** ** More on the free-text search *)

Lemma List_filter_sublist {A} (f : A → bool) (l : list A) :
  List.filter f l `sublist_of` l.
Proof.
  induction l as [|x l IH]; cbn [List.filter]; [constructor|].
  destruct (f x); by constructor.
Qed.

Lemma List_filter_comm {A} (f g : A → bool) (l : list A) :
  List.filter f (List.filter g l) = List.filter g (List.filter f l).
Proof.
  induction l as [|x l IH]; [done|]. cbn [List.filter].
  destruct (g x) eqn:Eg, (f x) eqn:Ef; cbn [List.filter];
    rewrite ?Eg, ?Ef, IH; done.
Qed.

Lemma List_filter_idemp {A} (f : A → bool) (l : list A) :
  List.filter f (List.filter f l) = List.filter f l.
Proof.
  induction l as [|x l IH]; [done|]. cbn [List.filter].
  destruct (f x) eqn:Ef; cbn [List.filter]; rewrite ?Ef, IH; done.
Qed.

Lemma search_sublist (q : option string) (tools : list Tool) :
  search q tools `sublist_of` tools.
Proof.
  unfold search. destruct (given q); [apply List_filter_sublist|done].
Qed.

Lemma existsb_map {A B} (f : B → bool) (g : A → B) (l : list A) :
  existsb (λ x, f (g x)) l = existsb f (map g l).
Proof. induction l as [|x l IH]; [done|]. cbn [map existsb]. by rewrite IH. Qed.

Lemma lower_empty (s : string) : Text.lower s = EmptyString → s = EmptyString.
Proof. by destruct s. Qed.

(** X4. The query only narrows an answer: the store is asked the same
    question with and without [q], the answer with [q] is a sub-sequence of
    the answer without it, in the same order, and a failure without [q] is
    the same failure with it. *)
Theorem query_only_narrows
    (db : Database) (sc : Schemas) (q category pricing : option string)
    (limit : Z) :
  (∀ every,
     list_tools None category pricing limit = Ok every →
     list_tools q category pricing limit = Ok (search q every)
     ∧ search q every `sublist_of` every
     ∧ (length (search q every) ≤ length every)%nat)
  ∧ (∀ err,
       list_tools None category pricing limit = Error err →
       list_tools q category pricing limit = Error err).
Proof.
  unfold list_tools.
  destruct (get_documents "tool" (build_filter category pricing) limit)
    as [docs|e]; simpl; [|by split].
  destruct (hydrate docs) as [items|e]; simpl; [|by split].
  split; [|discriminate]. intros every [= <-].
  split; [done|]. split; [apply search_sublist|].
  apply sublist_length, search_sublist.
Qed.

Lemma query_only_narrows_witness :
  let db := collection_db sample_store in
  let every := [pdf_summarizer; generic_chatbot; code_helper] in
  @list_tools db spec_schemas None None None 50 = Ok every
  ∧ @list_tools db spec_schemas (Some "HELP") None None 50
    = Ok (search (Some "HELP") every)
  ∧ search (Some "HELP") every = [code_helper].
Proof.
  intros db every.
  assert (@list_tools db spec_schemas None None None 50 = Ok every) as Hall
    by (vm_compute; reflexivity).
  split; [exact Hall|]. split; [|vm_compute; reflexivity].
  exact (proj1 (proj1 (query_only_narrows db spec_schemas (Some "HELP")
                         None None 50) every Hall)).
Defined.

(** X5. The search ignores case on both sides: two queries with the same
    lower-casing select the same tools, and two tools whose names,
    descriptions and tags have the same lower-casing are selected by the
    same queries. *)
Theorem search_ignores_case (q q' : string) (t t' : Tool) (tools : list Tool) :
  (Text.lower q = Text.lower q' →
   search (Some q) tools = search (Some q') tools)
  ∧ (Text.lower (name t) = Text.lower (name t') →
     Text.lower (description t) = Text.lower (description t') →
     map Text.lower (tags t) = map Text.lower (tags t') →
     text_match (Text.lower q) t = text_match (Text.lower q) t').
Proof.
  split.
  - intros Hq. unfold search. destruct q as [|c q], q' as [|c' q'];
      cbn [given truthy]; try done.
    cbn zeta. by rewrite Hq.
  - intros Hn Hd Ht. unfold text_match. rewrite Hn, Hd. f_equal.
    assert (∀ l, existsb (λ tag, Text.contains (Text.lower tag) (Text.lower q)) l
                 = existsb (λ s, Text.contains s (Text.lower q))
                           (map Text.lower l)) as E.
    { intros l.
      apply (existsb_map (λ s, Text.contains s (Text.lower q)) Text.lower). }
    by rewrite !E, Ht.
Qed.

Lemma search_ignores_case_witness :
  let shouting :=
    mkTool "PDF SUMMARIZER" "Summarize PDF Documents" ["PDF"; "Summary"]
           [] "paid" [] in
  Text.lower "Pdf" = Text.lower "pDF"
  ∧ search (Some "Pdf") [pdf_summarizer; code_helper]
    = search (Some "pDF") [pdf_summarizer; code_helper]
  ∧ text_match (Text.lower "Pdf") pdf_summarizer
    = text_match (Text.lower "Pdf") shouting.
Proof.
  intros shouting.
  destruct (search_ignores_case "Pdf" "pDF" pdf_summarizer shouting
              [pdf_summarizer; code_helper]) as [Hq Ht].
  split; [reflexivity|]. split; [apply Hq; reflexivity|].
  apply Ht; reflexivity.
Defined.

(** X6. Searching twice: a second search with the same query changes
    nothing, and two queries may be applied in either order. *)
Theorem search_twice (q q' : option string) (tools : list Tool) :
  search q (search q tools) = search q tools
  ∧ search q (search q' tools) = search q' (search q tools).
Proof.
  unfold search. destruct (given q), (given q'); cbn zeta;
    auto using List_filter_idemp, List_filter_comm.
Qed.

(** * Further properties of the scorer *)

Lemma task_words_app (a b : string) :
  task_words (a +:+ " " +:+ b) = task_words a ∪ task_words b.
Proof.
  unfold task_words, Text.split. rewrite lower_append.
  change (Text.lower (" " +:+ b)) with (String " " (Text.lower b)).
  by rewrite split_go_space, list_to_set_app_L.
Qed.

Lemma size_filter_le (P : string → Prop) `{!∀ w, Decision (P w)}
    (S : gset string) :
  (size (filter P S) ≤ size S)%nat.
Proof. apply subseteq_size. intros w. rewrite elem_of_filter. tauto. Qed.

Lemma filter_union_gset (P : string → Prop) `{!∀ w, Decision (P w)}
    (X Y : gset string) :
  filter P (X ∪ Y) = filter P X ∪ filter P Y.
Proof.
  apply set_eq. intros w.
  rewrite elem_of_union, !elem_of_filter, elem_of_union. tauto.
Qed.

Lemma score_tool_words (order : set_order) task task' cats budget tool :
  task_words task = task_words task' →
  score_tool order task cats budget tool
  = score_tool order task' cats budget tool.
Proof.
  intros H. rewrite (score_tool_task order task), (score_tool_task order task').
  by rewrite H.
Qed.

Lemma given_Some (o : option string) (b : string) :
  given o = Some b ↔ o = Some b ∧ b ≠ EmptyString.
Proof.
  destruct o as [[|c s]|]; cbn [given truthy]; split;
    try discriminate; try (by intros [[=] _]).
  - by intros [[= <-] H].
  - by intros [= <-].
  - by intros [[= <-] _].
Qed.

Lemma given_None (o : option string) (b : string) :
  given o = None → o = Some b → b = EmptyString.
Proof. intros H ->. by destruct b. Qed.

Lemma given_list_Some (o : option (list string)) (cs : list string) :
  given_list o = Some cs ↔ o = Some cs ∧ cs ≠ [].
Proof.
  destruct o as [[|c l]|]; cbn [given_list]; split;
    try discriminate; try (by intros [[=] _]).
  - by intros [[= <-] H].
  - by intros [= <-].
  - by intros [[= <-] _].
Qed.

Lemma nothing_earned (tool : Tool) (S : gset string) :
  size (filter (earns tool) S) = 0%nat → ∀ w, w ∈ S → ¬ earns tool w.
Proof.
  intros H w Hw He. apply size_empty_iff in H.
  apply (not_elem_of_empty (C:=gset string) w). rewrite <- H.
  by apply elem_of_filter.
Qed.

(** X7. A score lies between -1 and 2 per unique task word plus 5. It is
    negative only as -1, and only for a tool that earns nothing for the
    task, overlaps none of the requested categories and does not have the
    budget as pricing. *)
Theorem score_bounds
    (order : set_order) (task : string) (cats : option (list string))
    (budget : option string) (tool : Tool) :
  -1 ≤ score_tool order task cats budget tool
  ∧ score_tool order task cats budget tool
    ≤ 2 * Z.of_nat (size (task_words task)) + 5
  ∧ (score_tool order task cats budget tool < 0 →
     score_tool order task cats budget tool = -1
     ∧ (∃ cs, cats = Some cs ∧ cs ≠ [] ∧ ¬ category_overlap cs tool)
     ∧ (∀ w, w ∈ task_words task → ¬ earns tool w)
     ∧ (∀ b, budget = Some b → b ≠ EmptyString → pricing tool ≠ b)).
Proof.
  rewrite score_tool_unfold, keyword_loop_set. cbn zeta.
  pose proof (size_filter_le (earns tool) (task_words task)) as Hle.
  pose proof (nothing_earned tool (task_words task)) as Hk0.
  destruct (given_list cats) as [cs|] eqn:Ecs;
    [destruct (category_hit cs tool) eqn:Ehit|];
    (destruct (given budget) as [b|] eqn:Eb;
     [destruct (String.eqb_spec (pricing tool) b) as [Heq|Hneq]|]);
    (split; [lia|]; split; [lia|]; intros Hneg; try lia);
    apply given_list_Some in Ecs as [-> Hcs];
    (split; [lia|]; split;
     [exists cs; split; [done|]; split; [done|];
      rewrite <- category_hit_spec; congruence|];
     split; [apply Hk0; lia|]).
  - intros b' [= ->] Hb'. apply given_Some in Eb as [[= ->] _]. done.
  - intros b' -> Hb'. by apply (given_None _ b') in Eb.
Qed.

Lemma score_bounds_witness :
  let task := "summarize pdf documents" in
  score_tool elements_order task (Some ["design"]) (Some "free") generic_chatbot
  < 0
  ∧ score_tool elements_order task (Some ["design"]) (Some "free")
      generic_chatbot = -1.
Proof.
  intros task.
  assert (score_tool elements_order task (Some ["design"]) (Some "free")
            generic_chatbot < 0) as Hneg by (vm_compute; reflexivity).
  split; [exact Hneg|].
  exact (proj1 (proj2 (proj2 (score_bounds elements_order task
                                (Some ["design"]) (Some "free")
                                generic_chatbot)) Hneg)).
Defined.

(** X8. Only the set of lower-cased words of the task counts: two tasks
    with the same lower-casing score alike, and so do a task and the same
    words said in another order. *)
Theorem task_case_and_order_are_irrelevant
    (order : set_order) (a b : string) (cats : option (list string))
    (budget : option string) (tool : Tool) :
  (Text.lower a = Text.lower b →
   score_tool order a cats budget tool = score_tool order b cats budget tool)
  ∧ score_tool order (a +:+ " " +:+ b) cats budget tool
    = score_tool order (b +:+ " " +:+ a) cats budget tool.
Proof.
  split.
  - intros H. apply score_tool_words. unfold task_words. by rewrite H.
  - apply score_tool_words. rewrite !task_words_app. apply (comm_L (∪)).
Qed.

Lemma task_case_and_order_are_irrelevant_witness :
  Text.lower "Summarize PDF" = Text.lower "summarize pdf"
  ∧ score_tool elements_order "Summarize PDF" None None pdf_summarizer
    = score_tool elements_order "summarize pdf" None None pdf_summarizer.
Proof.
  split; [reflexivity|].
  exact (proj1 (task_case_and_order_are_irrelevant elements_order
                  "Summarize PDF" "summarize pdf" None None pdf_summarizer)
           eq_refl).
Defined.

(** X9. More words never lower a score: adding words to a task raises the
    score of a tool by at least 0 and at most 2 per unique added word. *)
Theorem more_words_never_lower_a_score
    (order : set_order) (task extra : string) (cats : option (list string))
    (budget : option string) (tool : Tool) :
  score_tool order task cats budget tool
  ≤ score_tool order (task +:+ " " +:+ extra) cats budget tool
  ∧ score_tool order (task +:+ " " +:+ extra) cats budget tool
    ≤ score_tool order task cats budget tool
      + 2 * Z.of_nat (size (task_words extra)).
Proof.
  rewrite (score_tool_task order (task +:+ " " +:+ extra)).
  rewrite (score_tool_task order task).
  rewrite task_words_app, filter_union_gset, size_union_alt.
  pose proof (size_filter_le (earns tool) (task_words extra)) as H1.
  assert (size (filter (earns tool) (task_words extra)
                ∖ filter (earns tool) (task_words task))
          ≤ size (filter (earns tool) (task_words extra)))%nat as H2.
  { apply subseteq_size. intros w. rewrite elem_of_difference. tauto. }
  lia.
Qed.

(** ** Ranking, continued *)

Lemma sort_reverse_sorted_id {A} (key : A → Z) (l : list A) :
  descending key l → sort_reverse key l = l.
Proof. intros Hd. symmetry. by apply sort_reverse_unique. Qed.

Lemma map_snd_scored order task cats budget (items : list Tool) :
  map snd (scored order task cats budget items) = items.
Proof. unfold scored. rewrite map_map. simpl. apply map_id. Qed.

Lemma top10_lookup order task cats budget (items : list Tool) (t : Tool) :
  t ∈ top10 order task cats budget items ↔
  ∃ i, (i < 10)%nat
       ∧ ranked order task cats budget items !! i
         = Some (score_tool order task cats budget t, t).
Proof.
  unfold top10. rewrite list_elem_of_fmap. split.
  - intros ([z t'] & -> & Hin). apply elem_of_take in Hin as (i & Hi & Hlt).
    exists i. split; [done|]. simpl.
    by destruct (ranked_entry _ _ _ _ _ _ _ _ Hi) as [<- _].
  - intros (i & Hlt & Hi). eexists. split; [|apply elem_of_take; eauto]. done.
Qed.

(** X10. With nothing to tell the tools apart the fetch order is the
    answer: when all fetched tools have the same score the recommendation
    is the first 10 fetched tools in fetch order, and this is so for a task
    without a word longer than 2 characters when neither categories nor a
    budget are given. *)
Theorem equal_scores_keep_fetch_order
    (order : set_order) (task : string) (cats : option (list string))
    (budget : option string) (items : list Tool) :
  ((∀ t t', t ∈ items → t' ∈ items →
            score_tool order task cats budget t
            = score_tool order task cats budget t') →
   top10 order task cats budget items = take 10 items)
  ∧ ((∀ w, w ∈ Text.split (Text.lower task) → Text.len w ≤ 2) →
     cats = None ∨ cats = Some [] →
     budget = None ∨ budget = Some EmptyString →
     top10 order task cats budget items = take 10 items).
Proof.
  assert ((∀ t t', t ∈ items → t' ∈ items →
             score_tool order task cats budget t
             = score_tool order task cats budget t') →
          top10 order task cats budget items = take 10 items) as Hsame.
  { intros Heq. unfold top10, ranked. rewrite sort_reverse_sorted_id.
    - rewrite <- (map_snd_scored order task cats budget items) at 2.
      symmetry. apply firstn_map.
    - intros i j [z t] [z' t'] _ Hi Hj. simpl.
      unfold scored in Hi, Hj.
      apply list_elem_of_lookup_2, list_elem_of_fmap in Hi as (u & [= -> ->] & Hu).
      apply list_elem_of_lookup_2, list_elem_of_fmap in Hj as (u' & [= -> ->] & Hu').
      rewrite (Heq u u' Hu Hu'). lia. }
  split; [exact Hsame|].
  intros Hshort Hcats Hbudget. apply Hsame. intros t t' _ _.
  assert (∀ u, score_tool order task cats budget u = 0) as Hzero.
  { intros u.
    assert (score_tool order task cats budget u
            = score_tool order task None None u) as ->.
    { by destruct Hcats as [->| ->], Hbudget as [->| ->]. }
    apply score_tool_bare. intros w Hw [Hlen _].
    apply elem_of_list_to_set in Hw. specialize (Hshort w Hw). lia. }
  by rewrite !Hzero.
Qed.

Lemma equal_scores_keep_fetch_order_witness :
  let items := [generic_chatbot; pdf_summarizer; code_helper] in
  (∀ w, w ∈ Text.split (Text.lower " AI to go ") → Text.len w ≤ 2)
  ∧ top10 elements_order " AI to go " (Some []) None items = items.
Proof.
  intros items.
  assert (∀ w, w ∈ Text.split (Text.lower " AI to go ") → Text.len w ≤ 2)
    as Hshort.
  { intros w Hw.
    let l := eval vm_compute in (Text.split (Text.lower " AI to go ")) in
      change (w ∈ l) in Hw.
    repeat (apply elem_of_cons in Hw as [->|Hw]; [vm_compute; discriminate|]).
    by apply not_elem_of_nil in Hw. }
  split; [exact Hshort|].
  exact (proj2 (equal_scores_keep_fetch_order elements_order " AI to go "
                  (Some []) None items)
           Hshort (or_intror eq_refl) (or_introl eq_refl)).
Defined.

(** X11. The recommendation is a selection of the fetched tools by score:
    every returned tool was fetched, a fetched tool that scores strictly
    higher than a returned one is returned too, and when at most 10 tools
    were fetched all of them are returned. *)
Theorem top10_selects_the_best
    (order : set_order) (task : string) (cats : option (list string))
    (budget : option string) (items : list Tool) :
  (∀ t, t ∈ top10 order task cats budget items → t ∈ items)
  ∧ (∀ t t',
       t ∈ top10 order task cats budget items → t' ∈ items →
       score_tool order task cats budget t < score_tool order task cats budget t' →
       t' ∈ top10 order task cats budget items)
  ∧ ((length items ≤ 10)%nat → top10 order task cats budget items ≡ₚ items).
Proof.
  split; [|split].
  - intros t Ht. apply top10_lookup in Ht as (i & _ & Hi).
    by destruct (ranked_entry _ _ _ _ _ _ _ _ Hi).
  - intros t t' Ht Ht' Hlt. apply top10_lookup in Ht as (i & Hi10 & Hi).
    assert ((score_tool order task cats budget t', t')
            ∈ ranked order task cats budget items) as Hin.
    { rewrite ranked_Permutation. unfold scored.
      apply list_elem_of_fmap. by exists t'. }
    apply list_elem_of_lookup in Hin as [j Hj].
    apply top10_lookup. exists j. split; [|done].
    pose proof (ranked_before _ _ _ _ _ _ _ _ _ _ _ Hj Hi Hlt). lia.
  - intros Hlen. unfold top10.
    rewrite take_ge by (rewrite length_ranked; lia).
    rewrite ranked_Permutation. by rewrite map_snd_scored.
Qed.

Lemma top10_selects_the_best_witness :
  let task := "summarize pdf documents" in
  let items := [generic_chatbot; code_helper; pdf_summarizer] in
  (length items ≤ 10)%nat
  ∧ top10 elements_order task None None items ≡ₚ items
  ∧ generic_chatbot ∈ top10 elements_order task None None items
  ∧ pdf_summarizer ∈ top10 elements_order task None None items.
Proof.
  intros task items.
  destruct (top10_selects_the_best elements_order task None None items)
    as (_ & Hbest & Hall).
  assert (length items ≤ 10)%nat as Hlen by (simpl; lia).
  assert (generic_chatbot ∈ top10 elements_order task None None items) as Hin.
  { rewrite (Hall Hlen). left. }
  split; [exact Hlen|]. split; [exact (Hall Hlen)|]. split; [exact Hin|].
  refine (Hbest generic_chatbot pdf_summarizer Hin _ _).
  - right. right. left.
  - vm_compute. reflexivity.
Defined.

(** ** Keywords and fields *)

Lemma spaceless_snoc (s : string) (c : ascii) :
  spaceless (s +:+ String c EmptyString)
  = spaceless s && negb (Text.isspace c).
Proof.
  induction s as [|c' s IH].
  - change (EmptyString +:+ String c EmptyString) with (String c EmptyString).
    cbn [spaceless]. by destruct (Text.isspace c).
  - rewrite append_cons. cbn [spaceless]. rewrite IH. by rewrite andb_assoc.
Qed.

Lemma split_go_spaceless (s cur w : string) :
  spaceless cur = true → w ∈ Text.split_go cur s → spaceless w = true.
Proof.
  revert cur. induction s as [|c s IH]; intros cur Hcur; cbn [Text.split_go].
  - destruct cur; [by intros ?%not_elem_of_nil|].
    by intros ->%list_elem_of_singleton.
  - destruct (Text.isspace c) eqn:Ec.
    + destruct cur as [|c' cur']; [by apply IH|].
      intros [->|Hw]%elem_of_cons; [done|]. by apply (IH EmptyString).
    + apply IH. by rewrite spaceless_snoc, Hcur, Ec.
Qed.

Lemma split_spaceless (s w : string) :
  w ∈ Text.split s → spaceless w = true.
Proof. by apply split_go_spaceless. Qed.

Lemma prefix_before_space (w a b : string) :
  spaceless w = true →
  String.prefix w (a +:+ String " " b) = String.prefix w a.
Proof.
  revert w. induction a as [|x a IH]; intros w Hw.
  - destruct w as [|c w]; [done|]. cbn [spaceless] in Hw.
    apply andb_true_iff in Hw as [Hc _].
    change (EmptyString +:+ String " " b) with (String " " b).
    cbn [String.prefix]. destruct (ascii_dec c " ") as [->|_]; [done|].
    done.
  - rewrite append_cons. destruct w as [|c w]; [done|].
    cbn [String.prefix]. cbn [spaceless] in Hw.
    apply andb_true_iff in Hw as [_ Hw].
    destruct (ascii_dec c x); [by apply IH|done].
Qed.

Lemma contains_around_space (w a b : string) :
  spaceless w = true →
  Text.contains (a +:+ String " " b) w
  = Text.contains a w || Text.contains b w.
Proof.
  intros Hw. induction a as [|x a IH].
  - change (EmptyString +:+ String " " b) with (String " " b).
    cbn [Text.contains].
    rewrite <- (prefix_before_space w EmptyString b Hw).
    change (EmptyString +:+ String " " b) with (String " " b).
    by rewrite orb_false_r.
  - rewrite append_cons. cbn [Text.contains].
    rewrite <- append_cons, (prefix_before_space w (String x a) b Hw), IH.
    by rewrite orb_assoc.
Qed.

Lemma contains_join (w : string) (l : list string) :
  spaceless w = true → w ≠ EmptyString →
  Text.contains (Text.join " " l) w = existsb (λ x, Text.contains x w) l.
Proof.
  intros Hw Hne. unfold Text.join. induction l as [|x l IH].
  - destruct w; done.
  - destruct l as [|y l].
    + cbn [String.concat existsb]. by rewrite orb_false_r.
    + change (String.concat " " (x :: y :: l))
        with (x +:+ String " " (String.concat " " (y :: l))).
      rewrite contains_around_space by done. rewrite IH. done.
Qed.

Lemma lower_join (l : list string) :
  Text.lower (Text.join " " l) = Text.join " " (map Text.lower l).
Proof.
  unfold Text.join. induction l as [|x l IH]; [done|].
  destruct l as [|y l]; [done|].
  change (String.concat " " (x :: y :: l))
    with (x +:+ String " " (String.concat " " (y :: l))).
  change (String.concat " " (map Text.lower (x :: y :: l)))
    with (Text.lower x +:+ String " " (String.concat " " (map Text.lower (y :: l)))).
  rewrite lower_append. cbn [Text.lower]. by rewrite IH.
Qed.

Lemma haystack_fields (tool : Tool) :
  haystack tool
  = Text.lower (name tool) +:+ String " "
      (Text.lower (description tool) +:+ String " "
         (Text.join " " (map Text.lower (tags tool)) +:+ String " "
            (Text.join " " (map Text.lower (use_cases tool))))).
Proof. unfold haystack. by rewrite !lower_append, !lower_join. Qed.

Lemma contains_haystack (tool : Tool) (w : string) :
  spaceless w = true → w ≠ EmptyString →
  Text.contains (haystack tool) w
  = Text.contains (Text.lower (name tool)) w
    || (Text.contains (Text.lower (description tool)) w
        || (existsb (λ x, Text.contains x w) (map Text.lower (tags tool))
            || existsb (λ x, Text.contains x w)
                       (map Text.lower (use_cases tool)))).
Proof.
  intros Hw Hne. rewrite haystack_fields.
  by rewrite !contains_around_space, !contains_join.
Qed.

(** X12. A task word matches a tool field by field: it earns its 2 points
    exactly when it is longer than 2 characters and occurs in the
    lower-cased name, in the lower-cased description, in one lower-cased
    tag or in one lower-cased use case. No match runs across two fields,
    two tags or two use cases. *)
Theorem keyword_matches_field_by_field
    (task : string) (tool : Tool) (w : string) :
  w ∈ Text.split (Text.lower task) →
  (2 < Text.len w ∧ Text.substring_of w (haystack tool))
  ↔ 2 < Text.len w
    ∧ (Text.substring_of w (Text.lower (name tool))
       ∨ Text.substring_of w (Text.lower (description tool))
       ∨ (∃ tag, tag ∈ tags tool ∧ Text.substring_of w (Text.lower tag))
       ∨ (∃ uc, uc ∈ use_cases tool ∧ Text.substring_of w (Text.lower uc))).
Proof.
  intros Hw. apply split_spaceless in Hw.
  split; intros [Hlen H]; (split; [exact Hlen|]).
  - assert (w ≠ EmptyString) as Hne
      by (intros ->; unfold Text.len in Hlen; simpl in Hlen; lia).
    apply contains_spec in H. rewrite contains_haystack in H by done.
    rewrite !orb_true_iff, !existsb_exists in H.
    destruct H as [Hn|[Hd|[(x & Hx & Hc)|(x & Hx & Hc)]]].
    + left. by apply contains_spec.
    + right. left. by apply contains_spec.
    + right. right. left.
      apply list_elem_of_In, list_elem_of_fmap in Hx as (tag & -> & Htag).
      exists tag. split; [done|]. by apply contains_spec.
    + right. right. right.
      apply list_elem_of_In, list_elem_of_fmap in Hx as (uc & -> & Huc).
      exists uc. split; [done|]. by apply contains_spec.
  - assert (w ≠ EmptyString) as Hne
      by (intros ->; unfold Text.len in Hlen; simpl in Hlen; lia).
    apply contains_spec. rewrite contains_haystack by done.
    rewrite !orb_true_iff, !existsb_exists.
    destruct H as [Hn|[Hd|[(tag & Htag & Hc)|(uc & Huc & Hc)]]].
    + left. by apply contains_spec.
    + right. left. by apply contains_spec.
    + right. right. left. exists (Text.lower tag).
      split; [|by apply contains_spec].
      apply list_elem_of_In, list_elem_of_fmap. by exists tag.
    + right. right. right. exists (Text.lower uc).
      split; [|by apply contains_spec].
      apply list_elem_of_In, list_elem_of_fmap. by exists uc.
Qed.

Lemma keyword_matches_field_by_field_witness :
  let tool := mkTool "Snap" "shot taker" ["pic"; "ture"] [] "free" ["photo"; "graph"] in
  "snapshot" ∈ Text.split (Text.lower "Snapshot of a picture")
  ∧ ¬ (2 < Text.len "snapshot" ∧ Text.substring_of "snapshot" (haystack tool)).
Proof.
  intros tool.
  assert ("snapshot" ∈ Text.split (Text.lower "Snapshot of a picture")) as Hw.
  { let l := eval vm_compute in (Text.split (Text.lower "Snapshot of a picture")) in
      change ("snapshot" ∈ l). left. }
  split; [exact Hw|].
  rewrite (keyword_matches_field_by_field "Snapshot of a picture" tool
             "snapshot" Hw).
  intros [_ H]. rewrite <- !contains_spec in H.
  destruct H as [H|[H|[(x & Hx & H)|(x & Hx & H)]]].
  - vm_compute in H. discriminate.
  - vm_compute in H. discriminate.
  - rewrite <- contains_spec in H.
    repeat (apply elem_of_cons in Hx as [->|Hx]; [vm_compute in H; discriminate|]).
    by apply not_elem_of_nil in Hx.
  - rewrite <- contains_spec in H.
    repeat (apply elem_of_cons in Hx as [->|Hx]; [vm_compute in H; discriminate|]).
    by apply not_elem_of_nil in Hx.
Defined.

(** * The diagnostic probe *)

Ltac probe_lookup :=
  repeat (rewrite lookup_insert_eq || rewrite lookup_insert_ne by done
          || rewrite lookup_singleton_eq || rewrite lookup_singleton_ne by done).

Lemma slice_to_length (n : nat) (s : string) :
  String.length (slice_to n s) = (n `min` String.length s)%nat.
Proof.
  revert s. induction n as [|n IH]; intros [|c s]; cbn [slice_to String.length];
    try done.
  by rewrite IH.
Qed.

Lemma slice_to_prefix (n : nat) (s : string) :
  ∃ rest, s = slice_to n s +:+ rest.
Proof.
  revert s. induction n as [|n IH]; intros s.
  - exists s. by destruct s.
  - destruct s as [|c s]; [by exists EmptyString|].
    destruct (IH s) as [rest Hrest]. exists rest.
    cbn [slice_to]. rewrite append_cons. by rewrite <- Hrest.
Qed.

(** X13. The probe always answers with the same six fields, whatever
    fails on the way. The field ["backend"] is constant, and
    ["database_url"] and ["database_name"] tell only whether the
    environment variables [DATABASE_URL] and [DATABASE_NAME] are set and
    not empty: what was written to them from the store handle is
    overwritten. *)
Theorem probe_shape_and_environment
    (db : option DbHandle) (env : gmap string string) :
  dom (test_database db env)
  = {[ "backend"; "database"; "database_url"; "database_name";
       "connection_status"; "collections" ]}
  ∧ test_database db env !! "backend" = Some (JStr "✅ Running")
  ∧ test_database db env !! "database_url"
    = Some (JStr (match env !! "DATABASE_URL" with
                  | Some (String _ _) => "✅ Set"
                  | _ => "❌ Not Set"
                  end))
  ∧ test_database db env !! "database_name"
    = Some (JStr (match env !! "DATABASE_NAME" with
                  | Some (String _ _) => "✅ Set"
                  | _ => "❌ Not Set"
                  end)).
Proof.
  unfold test_database, getenv_truthy. cbn zeta. split; [|split; [|split]].
  - destruct db as [[[[n|e]|] [names|e']]|];
      cbn [name_attr list_collection_names];
      repeat (rewrite dom_insert_lookup_L by (probe_lookup; eauto));
      by rewrite !dom_insert_L, dom_singleton_L.
  - destruct db as [[[[n|e]|] [names|e']]|];
      cbn [name_attr list_collection_names]; by probe_lookup.
  - probe_lookup. by destruct (env !! "DATABASE_URL") as [[|c v]|].
  - probe_lookup. by destruct (env !! "DATABASE_NAME") as [[|c v]|].
Qed.

(** X14. The probe lists at most 10 collections: the field
    ["collections"] holds the first 10 names the store handle lists, in
    their order, when the handle is there, its name can be read and the
    listing succeeds, and the empty list in every other case. *)
Theorem probe_lists_at_most_ten_collections
    (db : option DbHandle) (env : gmap string string) :
  ∃ l,
    test_database db env !! "collections" = Some (JList l)
    ∧ (length l ≤ 10)%nat
    ∧ (∀ h names,
         db = Some h → (∀ e, name_attr h ≠ Some (Raise e)) →
         list_collection_names h = Return names →
         l = take 10 names)
    ∧ (db = None → l = [])
    ∧ (∀ h e, db = Some h → name_attr h = Some (Raise e) → l = [])
    ∧ (∀ h e, db = Some h → list_collection_names h = Raise e → l = []).
Proof.
  unfold test_database. cbn zeta.
  destruct db as [[[[n|e]|] [names|e']]|];
    cbn [name_attr list_collection_names].
  - exists (take 10 names). split; [by probe_lookup|].
    split; [rewrite length_take; lia|]. naive_solver.
  - exists []. split; [by probe_lookup|]. split; [simpl; lia|]. naive_solver.
  - exists []. split; [by probe_lookup|]. split; [simpl; lia|]. naive_solver.
  - exists []. split; [by probe_lookup|]. split; [simpl; lia|]. naive_solver.
  - exists (take 10 names). split; [by probe_lookup|].
    split; [rewrite length_take; lia|]. naive_solver.
  - exists []. split; [by probe_lookup|]. split; [simpl; lia|]. naive_solver.
  - exists []. split; [by probe_lookup|]. split; [simpl; lia|]. naive_solver.
Qed.

Lemma probe_lists_at_most_ten_collections_witness :
  test_database (Some crowded_handle) ∅ !! "collections"
  = Some (JList ["c01"; "c02"; "c03"; "c04"; "c05";
                 "c06"; "c07"; "c08"; "c09"; "c10"]).
Proof.
  destruct (probe_lists_at_most_ten_collections (Some crowded_handle) ∅)
    as (l & Hl & _ & Htake & _).
  rewrite Hl. do 2 f_equal.
  refine (Htake crowded_handle _ eq_refl _ eq_refl). discriminate.
Defined.

(** X15. The probe never fails: a failure is told in the field
    ["database"] with at most the first 50 characters of the text of the
    exception. Without a handle the status is ["Not Connected"]; when the
    name of the handle cannot be read the status stays ["Not Connected"];
    when only the listing fails the status is ["Connected"]. *)
Theorem probe_reports_failures_in_the_answer
    (db : option DbHandle) (env : gmap string string) :
  (db = None →
   test_database db env !! "database"
   = Some (JStr "⚠️  Available but not initialized")
   ∧ test_database db env !! "connection_status" = Some (JStr "Not Connected"))
  ∧ (∀ h e,
       db = Some h → name_attr h = Some (Raise e) →
       test_database db env !! "database"
       = Some (JStr ("❌ Error: " +:+ slice_to 50 (str e)))
       ∧ test_database db env !! "connection_status"
         = Some (JStr "Not Connected"))
  ∧ (∀ h e,
       db = Some h → (∀ e', name_attr h ≠ Some (Raise e')) →
       list_collection_names h = Raise e →
       test_database db env !! "database"
       = Some (JStr ("⚠️  Connected but Error: " +:+ slice_to 50 (str e)))
       ∧ test_database db env !! "connection_status" = Some (JStr "Connected"))
  ∧ (∀ h names,
       db = Some h → (∀ e', name_attr h ≠ Some (Raise e')) →
       list_collection_names h = Return names →
       test_database db env !! "database"
       = Some (JStr "✅ Connected & Working")
       ∧ test_database db env !! "connection_status" = Some (JStr "Connected"))
  ∧ (∀ e, (String.length (slice_to 50 (str e)) ≤ 50)%nat
          ∧ ∃ rest, str e = slice_to 50 (str e) +:+ rest).
Proof.
  split; [|split; [|split; [|split]]].
  - intros ->. unfold test_database. cbn zeta. split; by probe_lookup.
  - intros h e -> Hname. unfold test_database. cbn zeta. rewrite Hname.
    split; by probe_lookup.
  - intros h e -> Hname Hlist. unfold test_database. cbn zeta. rewrite Hlist.
    destruct (name_attr h) as [[n|e0]|]; [|by destruct (Hname e0)|];
      split; by probe_lookup.
  - intros h names -> Hname Hlist. unfold test_database. cbn zeta.
    rewrite Hlist.
    destruct (name_attr h) as [[n|e0]|]; [|by destruct (Hname e0)|];
      split; by probe_lookup.
  - intros e. split; [rewrite slice_to_length; lia|apply slice_to_prefix].
Qed.

Lemma probe_reports_failures_in_the_answer_witness :
  test_database (Some unlisted_handle) ∅ !! "database"
  = Some (JStr
      "⚠️  Connected but Error: ServerSelectionTimeoutError: localhost:27017: [Err")
  ∧ test_database (Some unlisted_handle) ∅ !! "connection_status"
    = Some (JStr "Connected")
  ∧ test_database None ∅ !! "connection_status" = Some (JStr "Not Connected").
Proof.
  destruct (probe_reports_failures_in_the_answer (Some unlisted_handle) ∅)
    as (_ & _ & Hlist & _).
  destruct (Hlist unlisted_handle _ eq_refl ltac:(discriminate) eq_refl)
    as [Hd Hs].
  split; [rewrite Hd; reflexivity|]. split; [exact Hs|].
  exact (proj2 (proj1 (probe_reports_failures_in_the_answer None ∅) eq_refl)).
Defined.

(** ** Requested categories *)

Lemma category_overlap_lower (cs : list string) (tool : Tool) :
  category_overlap cs tool ↔
  ∃ x, x ∈ map Text.lower cs ∧ x ∈ map Text.lower (categories tool).
Proof.
  unfold category_overlap. split.
  - intros (c & cat & Hc & Hcat & Heq). exists (Text.lower c). split.
    + apply list_elem_of_fmap. by exists c.
    + apply list_elem_of_fmap. by exists cat.
  - intros (x & Hc & Hcat).
    apply list_elem_of_fmap in Hc as (c & -> & Hc).
    apply list_elem_of_fmap in Hcat as (cat & Heq & Hcat).
    by exists c, cat.
Qed.

(** X16. The category step looks only at which lower-cased categories are
    requested: two non-empty requests with the same lower-cased members,
    in any order and with any repetition, give every tool the same score.
    Several overlapping categories count as one. *)
Theorem requested_categories_count_as_a_set
    (order : set_order) (task : string) (cs cs' : list string)
    (budget : option string) (tool : Tool) :
  cs ≠ [] → cs' ≠ [] →
  (∀ x, x ∈ map Text.lower cs ↔ x ∈ map Text.lower cs') →
  score_tool order task (Some cs) budget tool
  = score_tool order task (Some cs') budget tool.
Proof.
  intros Hcs Hcs' Hsame. rewrite !score_tool_categories by done.
  assert (category_hit cs tool = category_hit cs' tool) as ->; [|done].
  apply eq_true_iff_eq. rewrite !category_hit_spec, !category_overlap_lower.
  split; intros (x & Hx & Hcat); exists x; (split; [by apply Hsame|done]).
Qed.

Lemma requested_categories_count_as_a_set_witness :
  let cs := ["Coding"; "design"] in
  let cs' := ["DESIGN"; "coding"; "Design"] in
  cs ≠ [] ∧ cs' ≠ []
  ∧ score_tool elements_order "write code" (Some cs) None code_helper
    = score_tool elements_order "write code" (Some cs') None code_helper.
Proof.
  intros cs cs'.
  assert (cs ≠ []) as Hcs by discriminate.
  assert (cs' ≠ []) as Hcs' by discriminate.
  split; [exact Hcs|]. split; [exact Hcs'|].
  refine (requested_categories_count_as_a_set elements_order "write code"
            cs cs' None code_helper Hcs Hcs' _).
  intros x. change (map Text.lower cs) with ["coding"; "design"].
  change (map Text.lower cs') with ["design"; "coding"; "design"].
  rewrite !elem_of_cons, !elem_of_nil. tauto.
Defined.
